(** * The EPUB encryption gateway: [pkg/api/encrypt_handler.go]

    A shallow embedding of the HTTP handler [EncryptEPUB] and of its
    helper [saveMultipartFile].  The handler is stateful Go code: it
    touches the filesystem, a response writer, the logger and the
    encryption engine.  It is embedded as a function over an explicit
    [World], written in a small monad with Go's [return] and [defer].

    The Go standard library, [google/uuid] and the [logrus] logger are
    not part of the repository; each call the handler makes to them is
    modelled by its documented behaviour, with the outcomes the handler
    cannot control (I/O failures, random numbers) drawn from an
    environment [Env].  The encryption engine [encrypt.ProcessEncryption]
    is a parameter. *)

From Stdlib Require Import ZArith NArith Strings.String Strings.Ascii Strings.Byte List Lia.
From stdpp Require Import base gmap strings list fin_maps pretty.

Local Open Scope string_scope.
Local Open Scope list_scope.

(** ** Errors

    A Go [error] is represented by its message ([err.Error()]); a call
    that returns [(T, error)] returns a [Result T]. *)

Inductive Result (A : Type) : Type :=
| Ok (a : A)
| Err (msg : string).
Arguments Ok {A} a.
Arguments Err {A} msg.

(** ** Paths ([path/filepath], Unix flavour)

    File names are Go strings.  The filesystem resolves a name to the
    list of its components, read from the root directory: empty
    components and ["."] are skipped, [".."] steps to the parent. *)

Fixpoint split_slash_go (s : string) (cur : string) : list string :=
  match s with
  | EmptyString => [cur]
  | String c s' =>
      if Ascii.eqb c "/" then cur :: split_slash_go s' EmptyString
      else split_slash_go s' (cur +:+ String c EmptyString)
  end.

Definition split_slash (s : string) : list string := split_slash_go s EmptyString.

Definition resolve_step (p : list string) (c : string) : list string :=
  if String.eqb c "" then p
  else if String.eqb c "." then p
  else if String.eqb c ".." then removelast p
  else p ++ [c].

Definition resolve (name : string) : list string :=
  fold_left resolve_step (split_slash name) [].

Definition render (p : list string) : string :=
  "/" +:+ String.concat "/" p.

(** [filepath.Clean] on a rooted name. *)
Definition filepath_Clean (name : string) : string := render (resolve name).

(** [filepath.Join(a, b)]: empty elements are ignored, the rest is joined
    with a separator and cleaned. *)
Definition filepath_Join (a b : string) : string :=
  if String.eqb b "" then filepath_Clean a
  else if String.eqb a "" then filepath_Clean b
  else filepath_Clean (a +:+ "/" +:+ b).

Fixpoint strip_trailing_empty (l : list string) : list string :=
  match l with
  | [] => []
  | c :: l' =>
      match strip_trailing_empty l' with
      | [] => if String.eqb c "" then [] else [c]
      | r => c :: r
      end
  end.

(** [filepath.Base]: the last element of the name, trailing separators
    removed; ["."] for the empty name and ["/"] for a name of separators
    only. *)
Definition filepath_Base (name : string) : string :=
  if String.eqb name "" then "."
  else match strip_trailing_empty (split_slash name) with
       | [] => "/"
       | cs => List.last cs ""
       end.

(** ** The filesystem *)

Inductive Node : Type :=
| IsFile (content : list byte)
| IsDir.

Abbreviation FileSystem := (gmap (list string) Node).

(** The root directory always exists. *)
Definition stat (fs : FileSystem) (p : list string) : option Node :=
  match p with
  | [] => Some IsDir
  | _ => fs !! p
  end.

Definition path_error (op name msg : string) : string :=
  op +:+ " " +:+ name +:+ ": " +:+ msg.

(** [os.Mkdir]: the parent must be a directory and the name free. *)
Definition os_Mkdir (name : string) (fs : FileSystem) : Result FileSystem :=
  let p := resolve name in
  match stat fs (removelast p) with
  | Some IsDir =>
      match stat fs p with
      | None => Ok (<[p := IsDir]> fs)
      | Some _ => Err (path_error "mkdir" name "file exists")
      end
  | Some (IsFile _) => Err (path_error "mkdir" name "not a directory")
  | None => Err (path_error "mkdir" name "no such file or directory")
  end.

(** [os.MkdirAll]: creates the directory and every missing parent; an
    existing directory is left alone, a file in the way is an error. *)
Fixpoint mkdir_all_from (name : string) (base rest : list string) (fs : FileSystem) : Result FileSystem :=
  match rest with
  | [] => Ok fs
  | c :: rest' =>
      let p := base ++ [c] in
      match stat fs p with
      | Some IsDir => mkdir_all_from name p rest' fs
      | Some (IsFile _) => Err (path_error "mkdir" name "not a directory")
      | None => mkdir_all_from name p rest' (<[p := IsDir]> fs)
      end
  end.

Definition os_MkdirAll (name : string) (fs : FileSystem) : Result FileSystem :=
  mkdir_all_from name [] (resolve name) fs.

(** [os.Create]: creates or truncates the named file. *)
Definition os_Create (name : string) (fs : FileSystem) : Result FileSystem :=
  let p := resolve name in
  match stat fs (removelast p) with
  | Some IsDir =>
      match stat fs p with
      | Some IsDir => Err (path_error "open" name "is a directory")
      | _ => Ok (<[p := IsFile []]> fs)
      end
  | Some (IsFile _) => Err (path_error "open" name "not a directory")
  | None => Err (path_error "open" name "no such file or directory")
  end.

(** [os.OpenFile] with [O_CREATE|O_EXCL]: creates the named file, which
    must not exist. *)
Definition os_OpenFile_EXCL (name : string) (fs : FileSystem) : Result FileSystem :=
  let p := resolve name in
  match stat fs (removelast p) with
  | Some IsDir =>
      match stat fs p with
      | None => Ok (<[p := IsFile []]> fs)
      | Some _ => Err (path_error "open" name "file exists")
      end
  | Some (IsFile _) => Err (path_error "open" name "not a directory")
  | None => Err (path_error "open" name "no such file or directory")
  end.

(** [os.Open]: a directory can be opened too; reading it fails later. *)
Definition os_Open (name : string) (fs : FileSystem) : Result Node :=
  match stat fs (resolve name) with
  | Some n => Ok n
  | None => Err (path_error "open" name "no such file or directory")
  end.

(** [os.RemoveAll]: removes the path and any children it contains.  The
    handler discards its result. *)
Definition os_RemoveAll (name : string) (fs : FileSystem) : FileSystem :=
  filter (fun kv => ¬ (resolve name `prefix_of` kv.1)) fs.

(** ** [encoding/base64]: [StdEncoding.EncodeToString] (RFC 4648, padded) *)

Definition base64_char (n : N) : ascii :=
  if (n <? 26)%N then ascii_of_N (65 + n)
  else if (n <? 52)%N then ascii_of_N (97 + (n - 26))
  else if (n <? 62)%N then ascii_of_N (48 + (n - 52))
  else if (n =? 62)%N then "+"%char
  else "/"%char.

Definition sextet (v : N) (i : N) : ascii :=
  base64_char (N.land (N.shiftr v (6 * (3 - i))) 63).

Fixpoint base64_EncodeToString (src : list byte) : string :=
  match src with
  | [] => ""
  | [a] =>
      let v := N.shiftl (Byte.to_N a) 16 in
      String (sextet v 0) (String (sextet v 1) "==")
  | [a; b] =>
      let v := N.lor (N.shiftl (Byte.to_N a) 16) (N.shiftl (Byte.to_N b) 8) in
      String (sextet v 0) (String (sextet v 1) (String (sextet v 2) "="))
  | a :: b :: c :: rest =>
      let v := N.lor (N.lor (N.shiftl (Byte.to_N a) 16) (N.shiftl (Byte.to_N b) 8))
                     (Byte.to_N c) in
      String (sextet v 0) (String (sextet v 1) (String (sextet v 2)
        (String (sextet v 3) (base64_EncodeToString rest))))
  end.

(** ** [github.com/google/uuid]

    [uuid.New] draws 16 random bytes and stamps the version (4) and the
    variant (RFC 4122) on them; [String] prints the 8-4-4-4-12 form. *)

Definition random_byte (r : N) (i : N) : N :=
  N.land (N.shiftr r (8 * (15 - i))) 255.

Definition uuid_stamp (i : N) (b : N) : N :=
  if (i =? 6)%N then N.lor (N.land b 15) 64
  else if (i =? 8)%N then N.lor (N.land b 63) 128
  else b.

Definition uuid_New (r : N) : list N :=
  map (fun i => uuid_stamp i (random_byte r i)) (map N.of_nat (seq 0 16)).

Definition hex_digit (n : N) : ascii :=
  if (n <? 10)%N then ascii_of_N (48 + n) else ascii_of_N (97 + (n - 10)).

Fixpoint hex_EncodeToString (bs : list N) : string :=
  match bs with
  | [] => ""
  | b :: bs' =>
      String (hex_digit (N.shiftr b 4)) (String (hex_digit (N.land b 15))
        (hex_EncodeToString bs'))
  end.

Definition uuid_String (u : list N) : string :=
  hex_EncodeToString (take 4 u) +:+ "-" +:+
  hex_EncodeToString (take 2 (drop 4 u)) +:+ "-" +:+
  hex_EncodeToString (take 2 (drop 6 u)) +:+ "-" +:+
  hex_EncodeToString (take 2 (drop 8 u)) +:+ "-" +:+
  hex_EncodeToString (drop 10 u).

(** ** [encoding/json]

    [json.Marshal] walks a Go value by its type.  The values it can meet
    are given as a small universe: strings, unsigned integers and
    booleans encode; channels and functions are refused with an
    [UnsupportedTypeError]; a struct encodes its exported fields, in
    declaration order, under their [json] tags, and fails when a field
    does.  How a string is quoted and escaped is left to [quote], which
    is total: the encoder replaces invalid UTF-8 instead of failing. *)

#[warnings="-register-all"]
Inductive GoValue : Type :=
| VString (s : string)
| VUint32 (n : N)
| VBool (b : bool)
| VChan
| VFunc
| VStruct (fields : list (string * GoValue)).

Section Json.
Variable quote : string -> string.

Fixpoint marshal_fields (marshal : GoValue -> Result string) (first : bool)
    (fields : list (string * GoValue)) : Result string :=
  match fields with
  | [] => Ok "}"
  | (k, v) :: fields' =>
      match marshal v with
      | Err e => Err e
      | Ok sv =>
          match marshal_fields marshal false fields' with
          | Err e => Err e
          | Ok rest =>
              Ok ((if first then "" else ",") +:+ quote k +:+ ":" +:+ sv +:+ rest)
          end
      end
  end.

Fixpoint marshal_value (v : GoValue) : Result string :=
  match v with
  | VString s => Ok (quote s)
  | VUint32 n => Ok (pretty n)
  | VBool b => Ok (if b then "true" else "false")
  | VChan => Err "json: unsupported type: chan"
  | VFunc => Err "json: unsupported type: func"
  | VStruct fields =>
      match marshal_fields marshal_value true fields with
      | Err e => Err e
      | Ok body => Ok ("{" +:+ body)
      end
  end.

Definition json_Marshal (v : GoValue) : Result string := marshal_value v.
End Json.

(** ** [mime/multipart] and [net/http]: the request

    A request carries its URL query and its body.  A body that is not
    multipart form data (wrong content type, missing boundary, a part
    cut short) carries the error the multipart reader reports. *)

Record Part : Type := {
  part_name : string;          (* name parameter of Content-Disposition *)
  part_filename : string;      (* filename parameter, as sent *)
  part_content : list byte
}.

Inductive RequestBody : Type :=
| NotMultipart (err : string)
| Multipart (parts : list Part).

Record Request : Type := {
  URLQuery : gmap string (list string);
  URLQueryErr : option string;   (* first error of [ParseForm] on the query *)
  Body : RequestBody
}.

Record FileHeader : Type := {
  Filename : string;
  fh_Size : Z;
  fh_content : list byte;
  fh_tmpfile : bool              (* spilled to a temporary file on disk *)
}.

Record Form : Type := {
  Value : gmap string (list string);
  File : gmap string (list FileHeader)
}.

(** [r.Form] and [r.MultipartForm] once [ParseMultipartForm] has run. *)
Record ParsedRequest : Type := {
  r_Form : gmap string (list string);
  r_MultipartForm : Form
}.

(** [Part.FileName]: directory information in the filename is dropped. *)
Definition Part_FileName (p : Part) : string :=
  if String.eqb (part_filename p) "" then "" else filepath_Base (part_filename p).

Definition append_at {A : Type} (k : string) (v : A) (m : gmap string (list A)) : gmap string (list A) :=
  <[k := default [] (m !! k) ++ [v]]> m.

(** [multipart.Reader.ReadForm], as documented: it stores up to
    [maxMemory] bytes plus 10 MB (reserved for non-file parts) in
    memory; file parts which cannot be stored in memory are stored on
    disk in temporary files, whatever their size; [ErrMessageTooLarge]
    is returned if all non-file parts cannot be stored in memory.  A
    part without a name is skipped; a part without a filename is a
    value.  The per-part bookkeeping overhead and the limit on the
    number of parts of recent Go releases are left out. *)
Fixpoint readForm (spillErr : option string) (parts : list Part)
    (maxMemoryBytes maxFileMemoryBytes : Z) (form : Form) : Result Form :=
  match parts with
  | [] => Ok form
  | p :: parts' =>
      let name := part_name p in
      if String.eqb name "" then
        readForm spillErr parts' maxMemoryBytes maxFileMemoryBytes form
      else
        let filename := Part_FileName p in
        let n := Z.of_nat (length (part_content p)) in
        if String.eqb filename "" then
          if (maxMemoryBytes <? n)%Z then Err "multipart: message too large"
          else readForm spillErr parts' (maxMemoryBytes - n) maxFileMemoryBytes
                 {| Value := append_at name (string_of_list_byte (part_content p)) (Value form);
                    File := File form |}
        else if (maxFileMemoryBytes <? n)%Z then
          match spillErr with
          | Some e => Err e
          | None =>
              readForm spillErr parts' maxMemoryBytes maxFileMemoryBytes
                {| Value := Value form;
                   File := append_at name
                             {| Filename := filename; fh_Size := n;
                                fh_content := part_content p; fh_tmpfile := true |}
                             (File form) |}
          end
        else
          readForm spillErr parts' (maxMemoryBytes - n) (maxFileMemoryBytes - n)
            {| Value := Value form;
               File := append_at name
                         {| Filename := filename; fh_Size := n;
                            fh_content := part_content p; fh_tmpfile := false |}
                         (File form) |}
  end.

Definition multipart_ReadForm (spillErr : option string) (parts : list Part) (maxMemory : Z) : Result Form :=
  readForm spillErr parts (maxMemory + Z.shiftl 10 20) maxMemory {| Value := ∅; File := ∅ |}.

(** [Request.ParseMultipartForm]: the multipart values are appended to
    the values of the query; an error of the query is returned last. *)
Definition ParseMultipartForm (spillErr : option string) (r : Request) (maxMemory : Z) : Result ParsedRequest :=
  match Body r with
  | NotMultipart e => Err e
  | Multipart parts =>
      match multipart_ReadForm spillErr parts maxMemory with
      | Err e => Err e
      | Ok f =>
          match URLQueryErr r with
          | Some e => Err e
          | None =>
              Ok {| r_Form := union_with (fun a b => Some (a ++ b)) (URLQuery r) (Value f);
                    r_MultipartForm := f |}
          end
      end
  end.

(** The file parts [ReadForm] stores on disk, in the order of the body:
    those that do not fit in what is left of the memory for files. *)
Fixpoint spilled (parts : list Part) (maxFileMemoryBytes : Z) : list (list byte) :=
  match parts with
  | [] => []
  | p :: parts' =>
      if String.eqb (part_name p) "" then spilled parts' maxFileMemoryBytes
      else if String.eqb (Part_FileName p) "" then spilled parts' maxFileMemoryBytes
      else
        let n := Z.of_nat (length (part_content p)) in
        if (maxFileMemoryBytes <? n)%Z then part_content p :: spilled parts' maxFileMemoryBytes
        else spilled parts' (maxFileMemoryBytes - n)
  end.

(** [Request.FormFile]: the first file under the key, opened. *)
Definition FormFile (openErr : option string) (r : ParsedRequest) (key : string)
    : Result (list byte * FileHeader) :=
  match File (r_MultipartForm r) !! key with
  | Some (fh :: _) =>
      if fh_tmpfile fh then
        match openErr with
        | Some e => Err e
        | None => Ok (fh_content fh, fh)
        end
      else Ok (fh_content fh, fh)
  | _ => Err "http: no such file"
  end.

(** [Request.FormValue]: the first value under the key, or the empty string. *)
Definition FormValue (r : ParsedRequest) (key : string) : string :=
  match r_Form r !! key with
  | Some (v :: _) => v
  | _ => ""
  end.

(** ** [net/http]: the response writer

    [Wire] is what has been sent, in order: the status line with the
    headers as they stood when it was written, then the body chunks. *)

Inductive WireItem : Type :=
| WHeader (code : Z) (header : gmap string string)
| WData (bytes : list byte).

Record ResponseWriter : Type := {
  Header : gmap string string;
  Wire : list WireItem
}.

Definition is_WHeader (i : WireItem) : bool :=
  match i with WHeader _ _ => true | WData _ => false end.

Definition Header_Set (k v : string) (rw : ResponseWriter) : ResponseWriter :=
  {| Header := <[k := v]> (Header rw); Wire := Wire rw |}.

Definition Header_Del (k : string) (rw : ResponseWriter) : ResponseWriter :=
  {| Header := delete k (Header rw); Wire := Wire rw |}.

(** A second [WriteHeader] is ignored. *)
Definition WriteHeader (code : Z) (rw : ResponseWriter) : ResponseWriter :=
  if existsb is_WHeader (Wire rw) then rw
  else {| Header := Header rw; Wire := Wire rw ++ [WHeader code (Header rw)] |}.

(** [Write] sends the status 200 first when none was written. *)
Definition Write (bytes : list byte) (rw : ResponseWriter) : ResponseWriter :=
  let rw' := WriteHeader 200 rw in
  {| Header := Header rw'; Wire := Wire rw' ++ [WData bytes] |}.

Definition StatusOK : Z := 200.
Definition StatusBadRequest : Z := 400.
Definition StatusInternalServerError : Z := 500.

Definition newline : string := String (ascii_of_N 10) EmptyString.
Definition dquote : string := String (ascii_of_N 34) EmptyString.

(** [http.Error]: a plain-text reply with the given status. *)
Definition http_Error (error : string) (code : Z) (rw : ResponseWriter) : ResponseWriter :=
  let rw := Header_Del "Content-Length" rw in
  let rw := Header_Set "Content-Type" "text/plain; charset=utf-8" rw in
  let rw := Header_Set "X-Content-Type-Options" "nosniff" rw in
  let rw := WriteHeader code rw in
  Write (list_byte_of_string (error +:+ newline)) rw.

Fixpoint sent_header (wire : list WireItem) : option (Z * gmap string string) :=
  match wire with
  | [] => None
  | WHeader code h :: _ => Some (code, h)
  | WData _ :: wire' => sent_header wire'
  end.

Definition response_status (rw : ResponseWriter) : option Z :=
  match sent_header (Wire rw) with
  | Some (code, _) => Some code
  | None => None
  end.

Definition response_header (rw : ResponseWriter) : gmap string string :=
  match sent_header (Wire rw) with
  | Some (_, h) => h
  | None => ∅
  end.

Definition response_body (rw : ResponseWriter) : list byte :=
  concat (map (fun i => match i with WData b => b | WHeader _ _ => [] end) (Wire rw)).

(** ** The encryption engine ([encrypt] package) *)

Module encrypt.

(** Modelled from the spec: the descriptor type, which the encrypt
    package declares outside this file.  The spec lists its fields
    (identifier, content key, size, checksum, content type, file name,
    title); the names and types are those the handler reads them at. *)
Record Publication : Type := {
  UUID : string;
  Title : string;
  EncryptionKey : list byte;
  FileName : string;
  ContentType : string;
  Size : N;                    (* uint32 *)
  Checksum : string
}.

(** The ten parameters of [ProcessEncryption], under the names the call
    site gives them. *)
Record Args : Type := {
  contentID : string;
  contentKey : string;
  inputPath : string;
  tempRepo : string;
  outputRepo : string;
  storageRepo : string;
  storageURL : string;
  storageFilename : string;
  extractCover : bool;
  pdfNoMeta : bool
}.

(** The engine is opaque: it returns a descriptor or an error, and may
    change the filesystem in any way. *)
Definition Engine : Type := Args -> FileSystem -> Result Publication * FileSystem.

End encrypt.

(** ** What the handler cannot control *)

Record Env : Type := {
  TempDir : string;                     (* os.TempDir() *)
  SpillErr : option string;             (* writing a large file part to disk fails *)
  CreateTempRand : N;                   (* the random number in the name of that file *)
  UploadOpenErr : option string;        (* reopening a stored file part fails *)
  MkdirTempErr : option string;
  MkdirTempRand : N;                    (* the random number in the directory name *)
  CreateErr : option string;
  CopyErr : option (nat * string);      (* writing the staged file fails after n bytes *)
  RandomUUID : N;                       (* 128 random bits *)
  MkdirAllErr : option string;
  OpenErr : option string;
  StreamErr : option (nat * string)     (* the peer is gone after n bytes of the body *)
}.

(** ** Observations: log lines and calls to collaborators *)

Inductive Level : Type := InfoLevel | ErrorLevel.

Inductive Event : Type :=
| EvParseMultipartForm (maxMemory : Z) (res : Result ParsedRequest)
| EvFormFile (key : string) (res : Result (list byte * FileHeader))
| EvMkdirTemp (pattern : string) (res : Result string)
| EvCreate (name : string) (res : Result unit)
| EvCopy (name : string) (res : Result unit)
| EvClose (what : string)
| EvMkdirAll (name : string) (res : Result unit)
| EvProcessEncryption (args : encrypt.Args) (res : Result encrypt.Publication)
| EvOpen (name : string) (res : Result Node)
| EvMarshal (v : GoValue) (res : Result string)
| EvStream (res : Result unit)
| EvRemoveAll (name : string).

Inductive Deferred : Type :=
| DClose (what : string)
| DRemoveAll (name : string).

Record World : Type := {
  fs : FileSystem;
  resp : ResponseWriter;
  logs : list (Level * string);
  trace : list Event;
  defers : list Deferred            (* of the running function, latest first *)
}.

Definition set_fs (f : FileSystem) (w : World) : World :=
  {| fs := f; resp := resp w; logs := logs w; trace := trace w; defers := defers w |}.
Definition set_resp (r : ResponseWriter) (w : World) : World :=
  {| fs := fs w; resp := r; logs := logs w; trace := trace w; defers := defers w |}.
Definition add_log (l : Level * string) (w : World) : World :=
  {| fs := fs w; resp := resp w; logs := logs w ++ [l]; trace := trace w; defers := defers w |}.
Definition add_event (e : Event) (w : World) : World :=
  {| fs := fs w; resp := resp w; logs := logs w; trace := trace w ++ [e]; defers := defers w |}.
Definition set_defers (d : list Deferred) (w : World) : World :=
  {| fs := fs w; resp := resp w; logs := logs w; trace := trace w; defers := d |}.

(** ** A monad for Go function bodies

    A statement either falls through to the next one with a value or
    executes [return]; the state is the world. *)

Inductive Flow (R A : Type) : Type :=
| Next (a : A)
| Return (r : R).
Arguments Next {R A} a.
Arguments Return {R A} r.

Definition Go (R A : Type) : Type := World -> Flow R A * World.

Definition ret {R A : Type} (a : A) : Go R A := fun w => (Next a, w).

Definition bind {R A B : Type} (m : Go R A) (k : A -> Go R B) : Go R B :=
  fun w =>
    match m w with
    | (Next a, w') => k a w'
    | (Return r, w') => (Return r, w')
    end.

Definition return_ {R A : Type} (r : R) : Go R A := fun w => (Return r, w).

Declare Scope go_scope.
Delimit Scope go_scope with go.
Notation "x <- m ;; k" := (bind m (fun x => k))
  (at level 100, m at next level, right associativity) : go_scope.
Notation "m ;; k" := (bind m (fun _ => k))
  (at level 100, right associativity) : go_scope.
Local Open Scope go_scope.

(** [if err != nil { h; return }] after a call that returns [(T, error)]. *)
Definition orelse {R A : Type} (m : Go R (Result A)) (h : string -> Go R A) : Go R A :=
  res <- m ;;
  match res with
  | Ok a => ret a
  | Err e => h e
  end.

Definition defer {R : Type} (d : Deferred) : Go R unit :=
  fun w => (Next tt, set_defers (d :: defers w) w).

Definition run_deferred (d : Deferred) (w : World) : World :=
  match d with
  | DClose what => add_event (EvClose what) w
  | DRemoveAll name => add_event (EvRemoveAll name) (set_fs (os_RemoveAll name (fs w)) w)
  end.

Definition run_defers (ds : list Deferred) (w : World) : World :=
  fold_left (fun w d => run_deferred d w) ds w.

(** A function call: the body runs with its own deferred calls, which
    run, latest first, when it returns or reaches its end. *)
Definition call {R : Type} (body : Go R R) (w : World) : R * World :=
  let '(fl, w1) := body (set_defers [] w) in
  let r := match fl with Next r => r | Return r => r end in
  (r, set_defers (defers w) (run_defers (defers w1) (set_defers [] w1))).

Definition call_in {R R' : Type} (body : Go R R) : Go R' R :=
  fun w => let '(r, w') := call body w in (Next r, w').

Definition log {R : Type} (lvl : Level) (msg : string) : Go R unit :=
  fun w => (Next tt, add_log (lvl, msg) w).

Definition respond {R : Type} (f : ResponseWriter -> ResponseWriter) : Go R unit :=
  fun w => (Next tt, set_resp (f (resp w)) w).

(** A call to a collaborator that may change the filesystem; the call
    and its outcome are recorded. *)
Definition syscall {R A : Type} (ev : Result A -> Event) (op : FileSystem -> Result A * FileSystem) : Go R (Result A) :=
  fun w =>
    let '(res, fs') := op (fs w) in
    (Next res, add_event (ev res) (set_fs fs' w)).

(** ** [pkg/api]: [EncryptResponse], [saveMultipartFile], [EncryptEPUB] *)

(** [EncryptResponse] is returned as JSON in the X-Encrypt-Metadata header. *)
Record EncryptResponse : Type := {
  UUID : string;
  EncryptionKey : string;        (* base64-encoded *)
  Size : N;                      (* uint32 *)
  Checksum : string;
  ContentType : string;
  Title : string;
  FileName : string
}.

(** The value [json.Marshal] sees: the fields under their [json] tags. *)
Definition EncryptResponse_value (m : EncryptResponse) : GoValue :=
  VStruct [ ("uuid", VString (UUID m));
            ("encryption_key", VString (EncryptionKey m));
            ("size", VUint32 (Size m));
            ("checksum", VString (Checksum m));
            ("content_type", VString (ContentType m));
            ("title", VString (Title m));
            ("file_name", VString (FileName m)) ].

Fixpoint ends_with_slash (s : string) : bool :=
  match s with
  | EmptyString => false
  | String c EmptyString => Ascii.eqb c "/"
  | String _ s' => ends_with_slash s'
  end.

(** [joinPath] of package [os]. *)
Definition joinPath (dir name : string) : string :=
  if ends_with_slash dir then dir +:+ name else dir +:+ "/" +:+ name.

(** The pattern of [os.MkdirTemp] is split at its last star. *)
Fixpoint split_last_star (s : string) : option (string * string) :=
  match s with
  | EmptyString => None
  | String c s' =>
      match split_last_star s' with
      | Some (p, q) => Some (String c p, q)
      | None => if Ascii.eqb c "*" then Some (EmptyString, s') else None
      end
  end.

Definition prefixAndSuffix (pattern : string) : string * string :=
  match split_last_star pattern with
  | Some pq => pq
  | None => (pattern, "")
  end.

Section Handler.

Variable env : Env.
Variable ProcessEncryption : encrypt.Engine.
Variable Marshal : GoValue -> Result string.     (* json.Marshal *)

(** [os.MkdirTemp]: a new directory named prefix, random number,
    suffix, in [dir] or in the default temporary directory.  The
    random number is the one the call settles on. *)
Definition os_MkdirTemp (dir pattern : string) (fs : FileSystem) : Result string * FileSystem :=
  let dir := if String.eqb dir "" then TempDir env else dir in
  let '(prefix, suffix) := prefixAndSuffix pattern in
  let name := joinPath dir prefix +:+ pretty (MkdirTempRand env) +:+ suffix in
  match MkdirTempErr env with
  | Some e => (Err e, fs)
  | None =>
      match os_Mkdir name fs with
      | Ok fs' => (Ok name, fs')
      | Err e => (Err e, fs)
      end
  end.

(** [os.CreateTemp]: a new file, named like the directory of
    [os.MkdirTemp]; a name that is taken is never reused. *)
Definition os_CreateTemp (dir pattern : string) (fs : FileSystem) : Result string * FileSystem :=
  let dir := if String.eqb dir "" then TempDir env else dir in
  let '(prefix, suffix) := prefixAndSuffix pattern in
  let name := joinPath dir prefix +:+ pretty (CreateTempRand env) +:+ suffix in
  match os_OpenFile_EXCL name fs with
  | Ok fs' => (Ok name, fs')
  | Err e => (Err e, fs)
  end.

(** What stops [ReadForm] at the first file part it has to store on
    disk, if anything: the temporary file cannot be created, or writing
    to it fails. *)
Definition spill_error (fs : FileSystem) : option string :=
  match os_CreateTemp "" "multipart-" fs with
  | (Err e, _) => Some e
  | (Ok _, _) => SpillErr env
  end.

(** The filesystem after [ParseMultipartForm].  The file parts that do
    not fit in memory are written, one after the other, to one file
    [multipart-N] in the default temporary directory (Go 1.20 and
    later).  [ReadForm] removes that file when it fails; when it
    succeeds the file stays, also when the query of the request then
    turns out malformed, until [net/http] removes it after the handler
    has returned. *)
Definition spill_to_disk (r : Request) (maxMemory : Z) (fs : FileSystem) : FileSystem :=
  match Body r with
  | NotMultipart _ => fs
  | Multipart parts =>
      match multipart_ReadForm (spill_error fs) parts maxMemory,
            spilled parts maxMemory,
            os_CreateTemp "" "multipart-" fs with
      | Ok _, chunk :: chunks, (Ok name, fs') =>
          <[resolve name := IsFile (concat (chunk :: chunks))]> fs'
      | _, _, _ => fs
      end
  end.

(** [r.ParseMultipartForm(maxMemory)] on a filesystem. *)
Definition parseMultipartForm (r : Request) (maxMemory : Z) (fs : FileSystem)
    : Result ParsedRequest * FileSystem :=
  (ParseMultipartForm (spill_error fs) r maxMemory, spill_to_disk r maxMemory fs).

Definition create (name : string) (fs : FileSystem) : Result unit * FileSystem :=
  match CreateErr env with
  | Some e => (Err e, fs)
  | None =>
      match os_Create name fs with
      | Ok fs' => (Ok tt, fs')
      | Err e => (Err e, fs)
      end
  end.

(** [io.Copy(out, src)] into the file created at [name]. *)
Definition copy_to_file (name : string) (content : list byte) (fs : FileSystem) : Result unit * FileSystem :=
  match CopyErr env with
  | Some (n, e) => (Err e, <[resolve name := IsFile (take n content)]> fs)
  | None => (Ok tt, <[resolve name := IsFile content]> fs)
  end.

Definition mkdirAll (name : string) (fs : FileSystem) : Result unit * FileSystem :=
  match MkdirAllErr env with
  | Some e => (Err e, fs)
  | None =>
      match os_MkdirAll name fs with
      | Ok fs' => (Ok tt, fs')
      | Err e => (Err e, fs)
      end
  end.

Definition open (name : string) (fs : FileSystem) : Result Node * FileSystem :=
  match OpenErr env with
  | Some e => (Err e, fs)
  | None => (os_Open name fs, fs)
  end.

(** [io.Copy(w, encryptedFile)]: the body goes out until the file ends
    or the peer is gone. *)
Definition copy_to_response {R : Type} (name : string) (f : Node) : Go R (Result unit) :=
  fun w =>
    match f with
    | IsDir =>
        let err := path_error "read" name "is a directory" in
        (Next (Err err), add_event (EvStream (Err err)) w)
    | IsFile content =>
        match StreamErr env with
        | Some (n, e) =>
            (Next (Err e),
             add_event (EvStream (Err e)) (set_resp (Write (take n content) (resp w)) w))
        | None =>
            (Next (Ok tt),
             add_event (EvStream (Ok tt)) (set_resp (Write content (resp w)) w))
        end
    end.

(** [saveMultipartFile] saves an uploaded multipart file to disk. *)
Definition saveMultipartFile (src : option (list byte)) (dst : string)
    : Go (Result unit) (Result unit) :=
  match src with
  | None => return_ (Err "source is nil")
  | Some content =>
      orelse (syscall (EvCreate dst) (create dst))
             (fun err => return_ (Err err)) ;;
      defer (DClose dst) ;;
      err <- syscall (EvCopy dst) (copy_to_file dst content) ;;
      return_ err
  end.

(** [EncryptEPUB] accepts an EPUB upload, encrypts it, and returns the
    encrypted file as the response body with metadata in the
    X-Encrypt-Metadata header. *)
Definition EncryptEPUB_body (r : Request) : Go unit unit :=
  log InfoLevel "EncryptEPUB: request received" ;;

  (* 1. Parse multipart form *)
  pr <- orelse (syscall (EvParseMultipartForm (Z.shiftl 50 20))
                  (parseMultipartForm r (Z.shiftl 50 20)))
          (fun err =>
             log ErrorLevel ("EncryptEPUB: failed to parse multipart form: " +:+ err) ;;
             respond (http_Error "failed to parse multipart form" StatusBadRequest) ;;
             return_ tt) ;;

  (* 2. Get the uploaded file *)
  fh <- orelse (syscall (EvFormFile "file")
                  (fun fs => (FormFile (UploadOpenErr env) pr "file", fs)))
          (fun err =>
             log ErrorLevel ("EncryptEPUB: missing file field: " +:+ err) ;;
             respond (http_Error "missing 'file' field" StatusBadRequest) ;;
             return_ tt) ;;
  let '(file, header) := fh in
  defer (DClose "file") ;;

  (* Optional title field *)
  let title := FormValue pr "title" in

  (* 3. Create temp directory for processing *)
  tempDir <- orelse (syscall (EvMkdirTemp "lcp-encrypt-*") (os_MkdirTemp "" "lcp-encrypt-*"))
          (fun err =>
             log ErrorLevel ("EncryptEPUB: failed to create temp dir: " +:+ err) ;;
             respond (http_Error "internal server error" StatusInternalServerError) ;;
             return_ tt) ;;
  defer (DRemoveAll tempDir) ;;

  (* 4. Save the uploaded file to temp directory *)
  let inputPath := filepath_Join tempDir (Filename header) in
  orelse (call_in (saveMultipartFile (Some file) inputPath))
    (fun err =>
       log ErrorLevel ("EncryptEPUB: failed to save uploaded file: " +:+ err) ;;
       respond (http_Error "internal server error" StatusInternalServerError) ;;
       return_ tt) ;;

  (* 5. Generate UUID *)
  let contentID := uuid_String (uuid_New (RandomUUID env)) in

  (* 6. Create output directory *)
  let outputDir := filepath_Join tempDir "output" in
  orelse (syscall (EvMkdirAll outputDir) (mkdirAll outputDir))
    (fun err =>
       log ErrorLevel ("EncryptEPUB: failed to create output dir: " +:+ err) ;;
       respond (http_Error "internal server error" StatusInternalServerError) ;;
       return_ tt) ;;

  (* 7. Encrypt the publication *)
  let args := {| encrypt.contentID := contentID; encrypt.contentKey := "";
                 encrypt.inputPath := inputPath; encrypt.tempRepo := "";
                 encrypt.outputRepo := outputDir;
                 encrypt.storageRepo := ""; encrypt.storageURL := "";
                 encrypt.storageFilename := "";
                 encrypt.extractCover := false; encrypt.pdfNoMeta := false |} in
  publication <- orelse (syscall (EvProcessEncryption args)
                           (ProcessEncryption args))
          (fun err =>
             log ErrorLevel ("EncryptEPUB: encryption failed: " +:+ err) ;;
             respond (http_Error ("encryption failed: " +:+ err) StatusInternalServerError) ;;
             return_ tt) ;;

  (* Use the title from the EPUB metadata if not provided in form *)
  let pubTitle := encrypt.Title publication in
  let pubTitle := if negb (String.eqb title "") then title else pubTitle in

  (* 8. Read the encrypted file *)
  let encryptedPath := filepath_Join outputDir (encrypt.FileName publication) in
  encryptedFile <- orelse (syscall (EvOpen encryptedPath)
                             (open encryptedPath))
          (fun err =>
             log ErrorLevel ("EncryptEPUB: failed to open encrypted file: " +:+ err) ;;
             respond (http_Error "internal server error" StatusInternalServerError) ;;
             return_ tt) ;;
  defer (DClose "encryptedFile") ;;

  (* 9. Build metadata *)
  let metadata :=
    {| UUID := encrypt.UUID publication;
       EncryptionKey := base64_EncodeToString (encrypt.EncryptionKey publication);
       Size := encrypt.Size publication;
       Checksum := encrypt.Checksum publication;
       ContentType := encrypt.ContentType publication;
       Title := pubTitle;
       FileName := encrypt.FileName publication |} in
  metadataJSON <- orelse (syscall (EvMarshal (EncryptResponse_value metadata))
                            (fun fs => (Marshal (EncryptResponse_value metadata), fs)))
          (fun err =>
             log ErrorLevel ("EncryptEPUB: failed to marshal metadata: " +:+ err) ;;
             respond (http_Error "internal server error" StatusInternalServerError) ;;
             return_ tt) ;;

  (* 10. Set metadata in header, stream encrypted file as body *)
  respond (Header_Set "X-Encrypt-Metadata" metadataJSON) ;;
  respond (Header_Set "Content-Type" (encrypt.ContentType publication)) ;;
  respond (Header_Set "Content-Disposition"
             ("attachment; filename=" +:+ dquote +:+ encrypt.FileName publication +:+ dquote)) ;;
  respond (WriteHeader StatusOK) ;;

  orelse (copy_to_response encryptedPath encryptedFile)
    (fun err =>
       log ErrorLevel ("EncryptEPUB: failed to stream encrypted file: " +:+ err) ;;
       return_ tt) ;;

  log InfoLevel ("EncryptEPUB: success, uuid=" +:+ encrypt.UUID publication +:+
                 ", title=" +:+ pubTitle +:+
                 ", size=" +:+ pretty (encrypt.Size publication)).

Definition EncryptEPUB (r : Request) (w : World) : World :=
  snd (call (EncryptEPUB_body r) w).

End Handler.

(** A fresh response writer on a given filesystem. *)
Definition serving (fs0 : FileSystem) : World :=
  {| fs := fs0; resp := {| Header := ∅; Wire := [] |}; logs := []; trace := []; defers := [] |}.

(** ** A stub engine and a test bench

    The orchestration is exercised against a deterministic stand-in for
    the engine: it reads the staged input, writes the input reversed as
    the artifact into the output directory under the content identifier,
    and describes what it wrote. *)

Definition stub_key : list byte := list_byte_of_string "0123456789abcdef".

Definition stub_engine : encrypt.Engine :=
  fun args fs =>
    match stat fs (resolve (encrypt.inputPath args)) with
    | Some (IsFile input) =>
        let name := encrypt.contentID args +:+ ".epub" in
        let output := filepath_Join (encrypt.outputRepo args) name in
        let artifact := rev input in
        match os_Create output fs with
        | Err e => (Err e, fs)
        | Ok fs' =>
            (Ok {| encrypt.UUID := encrypt.contentID args;
                   encrypt.Title := "Embedded Title";
                   encrypt.EncryptionKey := stub_key;
                   encrypt.FileName := name;
                   encrypt.ContentType := "application/epub+zip";
                   encrypt.Size := N.of_nat (length artifact);
                   encrypt.Checksum := "stub-checksum" |},
             <[resolve output := IsFile artifact]> fs')
        end
    | _ => (Err "not an EPUB", fs)
    end.

(** An engine that refuses every input. *)
Definition failing_engine : encrypt.Engine :=
  fun _ fs => (Err "not an EPUB", fs).

(** A stand-in for the string encoder: no escaping. *)
Definition stub_quote (s : string) : string := dquote +:+ s +:+ dquote.

Definition calm : Env :=
  {| TempDir := "/tmp"; SpillErr := None; CreateTempRand := 7; UploadOpenErr := None;
     MkdirTempErr := None; MkdirTempRand := 42; CreateErr := None; CopyErr := None;
     RandomUUID := 0; MkdirAllErr := None; OpenErr := None; StreamErr := None |}.

Definition disk : FileSystem := <[ ["tmp"] := IsDir ]> ∅.

Definition upload (filename : string) (content : list byte) : Part :=
  {| part_name := "file"; part_filename := filename; part_content := content |}.

Definition field (name value : string) : Part :=
  {| part_name := name; part_filename := ""; part_content := list_byte_of_string value |}.

Definition post (parts : list Part) : Request :=
  {| URLQuery := ∅; URLQueryErr := None; Body := Multipart parts |}.

(** The peer goes away after two bytes of the body. *)
Definition hangup : Env :=
  {| TempDir := "/tmp"; SpillErr := None; CreateTempRand := 7; UploadOpenErr := None;
     MkdirTempErr := None; MkdirTempRand := 42; CreateErr := None; CopyErr := None;
     RandomUUID := 0; MkdirAllErr := None; OpenErr := None;
     StreamErr := Some (2, "write: broken pipe") |}.

Definition book : list byte := list_byte_of_string "hello".

Definition titled_upload : Request :=
  post [upload "book.epub" book; field "title" "My Book"].

Definition untitled_upload : Request := post [upload "book.epub" book].

Definition no_upload : Request := post [field "title" "My Book"].

(** The arguments the handler passes to the engine on the test bench,
    and three runs. *)
Definition bench_args : encrypt.Args :=
  {| encrypt.contentID := "00000000-0000-4000-8000-000000000000";
     encrypt.contentKey := "";
     encrypt.inputPath := "/tmp/lcp-encrypt-42/book.epub";
     encrypt.tempRepo := "";
     encrypt.outputRepo := "/tmp/lcp-encrypt-42/output";
     encrypt.storageRepo := "";
     encrypt.storageURL := "";
     encrypt.storageFilename := "";
     encrypt.extractCover := false;
     encrypt.pdfNoMeta := false |}.

Definition bench_run : World :=
  EncryptEPUB calm stub_engine (json_Marshal stub_quote) titled_upload (serving disk).

Definition bench_untitled : World :=
  EncryptEPUB calm stub_engine (json_Marshal stub_quote) untitled_upload (serving disk).

Definition bench_refused : World :=
  EncryptEPUB calm failing_engine (json_Marshal stub_quote) titled_upload (serving disk).

(** An encoder that fails, and a run with it. *)
Definition failing_Marshal : GoValue -> Result string :=
  fun _ => Err "json: error calling MarshalJSON".

Definition bench_unserialized : World :=
  EncryptEPUB calm stub_engine failing_Marshal titled_upload (serving disk).

(** What [ParseMultipartForm] leaves of a single upload named book.epub. *)
Definition stored (onDisk : bool) (content : list byte) : ParsedRequest :=
  {| r_Form := ∅;
     r_MultipartForm :=
       {| Value := ∅;
          File := {[ "file" := [ {| Filename := "book.epub";
                                   fh_Size := Z.of_nat (length content);
                                   fh_content := content;
                                   fh_tmpfile := onDisk |} ] ]} |} |}.

(** ** Notions the properties are stated with *)

(** The text [json.Marshal] produces for an [EncryptResponse]. *)
Definition EncryptResponse_json (quote : string -> string) (m : EncryptResponse) : string :=
  "{" +:+ quote "uuid" +:+ ":" +:+ quote (UUID m) +:+
  "," +:+ quote "encryption_key" +:+ ":" +:+ quote (EncryptionKey m) +:+
  "," +:+ quote "size" +:+ ":" +:+ pretty (Size m) +:+
  "," +:+ quote "checksum" +:+ ":" +:+ quote (Checksum m) +:+
  "," +:+ quote "content_type" +:+ ":" +:+ quote (ContentType m) +:+
  "," +:+ quote "title" +:+ ":" +:+ quote (Title m) +:+
  "," +:+ quote "file_name" +:+ ":" +:+ quote (FileName m) +:+ "}".

(** A value of a type [json.Marshal] always accepts. *)
Definition scalar (v : GoValue) : Prop :=
  match v with
  | VString _ | VUint32 _ | VBool _ => True
  | _ => False
  end.

(** Modelled from the spec: the engine's side of the contract, which the
    encrypt package (not in this file) implements.  The descriptor's
    file name is the name under which the artifact was written to the
    output directory, and its size is the byte length of that artifact. *)
Definition engine_describes_artifact (E : encrypt.Engine) : Prop :=
  forall args fs pub fs',
    E args fs = (Ok pub, fs') ->
    exists artifact,
      stat fs' (resolve (filepath_Join (encrypt.outputRepo args) (encrypt.FileName pub)))
        = Some (IsFile artifact) /\
      encrypt.Size pub = N.of_nat (length artifact).

(** The request ran to its end: the whole body went out. *)
Definition completed (w : World) : Prop := EvStream (Ok tt) ∈ trace w.

(** The same engine, handing out other content keys. *)
Definition with_key (k : list byte) (pub : encrypt.Publication) : encrypt.Publication :=
  {| encrypt.UUID := encrypt.UUID pub;
     encrypt.Title := encrypt.Title pub;
     encrypt.EncryptionKey := k;
     encrypt.FileName := encrypt.FileName pub;
     encrypt.ContentType := encrypt.ContentType pub;
     encrypt.Size := encrypt.Size pub;
     encrypt.Checksum := encrypt.Checksum pub |}.

Definition rekey (k : encrypt.Args -> FileSystem -> list byte) (E : encrypt.Engine)
    : encrypt.Engine :=
  fun args fs =>
    let '(res, fs') := E args fs in
    (match res with Ok pub => Ok (with_key (k args fs) pub) | Err e => Err e end, fs').

(** The response with the metadata header blanked out. *)
Definition without_metadata (rw : ResponseWriter) : ResponseWriter :=
  {| Header := delete "X-Encrypt-Metadata" (Header rw);
     Wire := map (fun i => match i with
                           | WHeader code h => WHeader code (delete "X-Encrypt-Metadata" h)
                           | WData b => WData b
                           end) (Wire rw) |}.

(** The reply each failed call must lead to: status and text. *)
Definition failure_reply (e : Event) : option (Z * string) :=
  match e with
  | EvParseMultipartForm _ (Err _) => Some (400%Z, "failed to parse multipart form")
  | EvFormFile _ (Err _) => Some (400%Z, "missing 'file' field")
  | EvMkdirTemp _ (Err _) => Some (500%Z, "internal server error")
  | EvCreate _ (Err _) => Some (500%Z, "internal server error")
  | EvCopy _ (Err _) => Some (500%Z, "internal server error")
  | EvMkdirAll _ (Err _) => Some (500%Z, "internal server error")
  | EvProcessEncryption _ (Err msg) => Some (500%Z, "encryption failed: " +:+ msg)
  | EvOpen _ (Err _) => Some (500%Z, "internal server error")
  | EvMarshal _ (Err _) => Some (500%Z, "internal server error")
  | _ => None
  end.

(** Deferred cleanup. *)
Definition is_cleanup (e : Event) : Prop :=
  match e with
  | EvClose _ | EvRemoveAll _ => True
  | _ => False
  end.

(** A call that went well, or cleanup. *)
Definition went_well (e : Event) : Prop :=
  match e with
  | EvParseMultipartForm _ (Ok _) | EvFormFile _ (Ok _) | EvMkdirTemp _ (Ok _)
  | EvCreate _ (Ok _) | EvCopy _ (Ok _) | EvMkdirAll _ (Ok _)
  | EvProcessEncryption _ (Ok _) | EvOpen _ (Ok _) | EvMarshal _ (Ok _)
  | EvStream (Ok _) | EvClose _ | EvRemoveAll _ => True
  | _ => False
  end.

Fixpoint engine_calls (t : list Event) : list (encrypt.Args * Result encrypt.Publication) :=
  match t with
  | [] => []
  | EvProcessEncryption args res :: t' => (args, res) :: engine_calls t'
  | _ :: t' => engine_calls t'
  end.

Fixpoint removals (t : list Event) : list string :=
  match t with
  | [] => []
  | EvRemoveAll name :: t' => name :: removals t'
  | _ :: t' => removals t'
  end.

(** Sizes of multipart bodies: the bytes of the part contents, a lower
    bound on the bytes of the body on the wire. *)
Definition payload_size (parts : list Part) : Z :=
  fold_right (fun p acc => (Z.of_nat (length (part_content p)) + acc)%Z) 0%Z parts.

(** The multipart form has no file part under the field name [file]. *)
Definition no_file_part (parts : list Part) : Prop :=
  Forall (fun p => ¬ (part_name p = "file" /\ part_filename p <> "")) parts.

(** A plain-text reply with the given status and text. *)
Definition plain_reply (code : Z) (text : string) (rw : ResponseWriter) : Prop :=
  response_status rw = Some code /\
  response_header rw !! "Content-Type" = Some "text/plain; charset=utf-8" /\
  response_body rw = list_byte_of_string (text +:+ newline).

(** ** Further notions and test-bench entries *)

Fixpoint has_slash (s : string) : bool :=
  match s with
  | EmptyString => false
  | String c s' => Ascii.eqb c "/" || has_slash s'
  end.

(** A path component that names an entry: no separator, not empty, not
    the directory itself nor its parent. *)
Definition plain (c : string) : Prop :=
  has_slash c = false /\ c <> "" /\ c <> "." /\ c <> "..".

(** What [Part.FileName] can return for a part with a filename: the
    separator alone, or a name without separator. *)
Definition base_name (c : string) : Prop :=
  c = "/" \/ (has_slash c = false /\ c <> "").

Definition named_files (f : Form) : Prop :=
  forall k l, File f !! k = Some l -> Forall (fun fh => base_name (Filename fh)) l.

(** The engine leaves what exists outside its output directory alone. *)
Definition engine_confined (E : encrypt.Engine) : Prop :=
  forall args fs res fs',
    E args fs = (res, fs') ->
    forall p n,
      ¬ resolve (encrypt.outputRepo args) `prefix_of` p ->
      fs !! p = Some n -> fs' !! p = Some n.

(** A part that [ReadForm] keeps as a value: named, without filename. *)
Definition is_value (p : Part) : bool :=
  negb (String.eqb (part_name p) "") && String.eqb (Part_FileName p) "".

Definition value_bytes (parts : list Part) : Z :=
  fold_right (fun p acc => if is_value p then (Z.of_nat (length (part_content p)) + acc)%Z
                           else acc) 0%Z parts.

(** An engine that writes one artifact, under a fixed name, into the
    output directory. *)
Definition tidy_engine : encrypt.Engine :=
  fun args fs =>
    let output := filepath_Join (encrypt.outputRepo args) "book.epub" in
    match os_Create output fs with
    | Err e => (Err e, fs)
    | Ok fs' =>
        (Ok {| encrypt.UUID := encrypt.contentID args;
               encrypt.Title := "";
               encrypt.EncryptionKey := stub_key;
               encrypt.FileName := "book.epub";
               encrypt.ContentType := "application/epub+zip";
               encrypt.Size := 8;
               encrypt.Checksum := "stub-checksum" |},
         <[resolve output := IsFile (list_byte_of_string "artifact")]> fs')
    end.

(** The title comes in the query as well as in the form. *)
Definition query_titled : Request :=
  {| URLQuery := {[ "title" := ["From Query"] ]}; URLQueryErr := None;
     Body := Multipart [upload "book.epub" book; field "title" "My Book"] |}.

(** The client names its upload with directories in front. *)
Definition traversal_upload : Request := post [upload "../../etc/passwd" book].

(** A form value of 60 MiB and one byte. *)
Definition long_note : Part :=
  {| part_name := "notes"; part_filename := "";
     part_content := replicate (N.to_nat 62914561) x00 |}.

Definition bench_hangup_run : World :=
  EncryptEPUB hangup stub_engine (json_Marshal stub_quote) titled_upload (serving disk).

Definition bench_no_upload : World :=
  EncryptEPUB calm stub_engine (json_Marshal stub_quote) no_upload (serving disk).

Definition bench_query : World :=
  EncryptEPUB calm stub_engine (json_Marshal stub_quote) query_titled (serving disk).

Definition bench_traversal : World :=
  EncryptEPUB calm stub_engine (json_Marshal stub_quote) traversal_upload (serving disk).

Definition bench_tidy : World :=
  EncryptEPUB calm tidy_engine (json_Marshal stub_quote) titled_upload (serving disk).

Definition bench_long_note : World :=
  EncryptEPUB calm stub_engine (json_Marshal stub_quote) (post [long_note]) (serving disk).

(** Only one byte of the staged file can be written. *)
Definition disk_full : Env :=
  {| TempDir := "/tmp"; SpillErr := None; CreateTempRand := 7; UploadOpenErr := None;
     MkdirTempErr := None; MkdirTempRand := 42; CreateErr := None;
     CopyErr := Some (1, "write: no space left on device");
     RandomUUID := 0; MkdirAllErr := None; OpenErr := None; StreamErr := None |}.

(** A file part sent under another field name than [file]. *)
Definition misnamed_upload (content : list byte) : Request :=
  post [ {| part_name := "attachment"; part_filename := "big.bin";
            part_content := content |} ].

(** A content of 50 MiB and one byte. *)
Definition oversized : list byte := replicate (N.to_nat 52428801) x00.

(** ** The title of a request *)

(** The values a multipart body carries under a field name, in the
    order of the body: the contents of the parts of that name that have
    no filename. *)
Fixpoint form_values (key : string) (parts : list Part) : list string :=
  match parts with
  | [] => []
  | p :: parts' =>
      if String.eqb (part_name p) key && String.eqb (part_filename p) ""
      then string_of_list_byte (part_content p) :: form_values key parts'
      else form_values key parts'
  end.

(** The title form field: the first value of the field [title] of the
    multipart form, empty when the form has none. *)
Definition form_title (r : Request) : string :=
  match Body r with
  | Multipart parts => hd "" (form_values "title" parts)
  | NotMultipart _ => ""
  end.

(** What [r.FormValue] looks at: the values of the URL query, then those
    of the body. *)
Definition request_values (key : string) (r : Request) : list string :=
  default [] (URLQuery r !! key) ++
  match Body r with
  | Multipart parts => form_values key parts
  | NotMultipart _ => []
  end.

Definition request_title (r : Request) : string := hd "" (request_values "title" r).

(** The title rule read on the form alone: in a completed run the
    metadata title is the title form field when that is not empty, and
    the descriptor's title otherwise. *)
Definition title_follows_form_field (env : Env) (E : encrypt.Engine)
    (M : GoValue -> Result string) (r : Request) (fs0 : FileSystem) : Prop :=
  let final := EncryptEPUB env E M r (serving fs0) in
  completed final ->
  forall args pub m json,
    EvProcessEncryption args (Ok pub) ∈ trace final ->
    EvMarshal (EncryptResponse_value m) (Ok json) ∈ trace final ->
    Title m = if String.eqb (form_title r) "" then encrypt.Title pub else form_title r.

(** * Properties *)

(** ** Symbolic execution

    [go_run] runs the handler along every path: it unfolds the monad and
    splits on the outcome of each call, in program order. *)

Ltac go_red :=
  cbv beta iota zeta delta
    [EncryptEPUB call call_in EncryptEPUB_body saveMultipartFile parseMultipartForm
     bind orelse syscall
     ret return_ defer log respond copy_to_response rekey with_key completed
     set_fs set_resp add_log add_event set_defers serving
     fs resp logs trace defers snd fst run_defers run_deferred fold_left app];
  cbn [encrypt.UUID encrypt.Title encrypt.EncryptionKey encrypt.FileName
       encrypt.ContentType encrypt.Size encrypt.Checksum].

Ltac go_case :=
  first
  [ lazymatch goal with |- context [ParseMultipartForm ?a ?b ?c] =>
      destruct (ParseMultipartForm a b c) as [?pr|?err] eqn:?Hparse end
  | lazymatch goal with |- context [FormFile ?a ?b ?c] =>
      destruct (FormFile a b c) as [[?file ?header]|?err] eqn:?Hfile end
  | lazymatch goal with |- context [os_MkdirTemp ?a ?b ?c ?d] =>
      destruct (os_MkdirTemp a b c d) as [[?tempDir|?err] ?fs1] eqn:?Htemp end
  | lazymatch goal with |- context [create ?a ?b ?c] =>
      destruct (create a b c) as [[[]|?err] ?fs2] eqn:?Hcreate end
  | lazymatch goal with |- context [copy_to_file ?a ?b ?c ?d] =>
      destruct (copy_to_file a b c d) as [[[]|?err] ?fs3] eqn:?Hcopy end
  | lazymatch goal with |- context [mkdirAll ?a ?b ?c] =>
      destruct (mkdirAll a b c) as [[[]|?err] ?fs4] eqn:?Hmkdir end
  | match goal with |- context [match ?E ?args ?f with _ => _ end] =>
      lazymatch type of E with encrypt.Engine =>
        destruct (E args f) as [[?pub|?err] ?fs5] eqn:?Hengine end end
  | lazymatch goal with |- context [open ?a ?b ?c] =>
      destruct (open a b c) as [[?node|?err] ?fs6] eqn:?Hopen end
  | match goal with |- context [match ?M (EncryptResponse_value ?m) with _ => _ end] =>
      destruct (M (EncryptResponse_value m)) as [?json|?err] eqn:?Hjson end
  | match goal with |- context [match ?n with IsFile _ => _ | IsDir => _ end] =>
      is_var n; destruct n as [?content|] end
  | lazymatch goal with |- context [StreamErr ?env] =>
      destruct (StreamErr env) as [[?sent ?err]|] eqn:?Hstream end ].

Ltac go_run := go_red; repeat (go_case; go_red).

(** Membership in a trace that is known event by event. *)
Ltac in_trace H :=
  apply list_elem_of_In in H; simpl in H;
  repeat match type of H with
         | _ \/ _ => destruct H as [H|H]; [try discriminate H|]
         end;
  try (exfalso; exact H).

Ltac resp_red :=
  cbn [response_status response_header response_body sent_header http_Error
       Write WriteHeader Header_Set Header_Del existsb is_WHeader orb
       Header Wire app map concat without_metadata
       StatusOK StatusBadRequest StatusInternalServerError].

(** Splitting a known trace around its [k]-th event. *)
Ltac split_at k :=
  match goal with
  | |- exists before cleanup, ?l = _ /\ _ =>
      exists (take k l), (drop (S k) l); split; [reflexivity|];
      split; cbn [take drop]; solve [repeat constructor]
  end.

Ltac split_trace :=
  first [ split_at 0 | split_at 1 | split_at 2 | split_at 3 | split_at 4 | split_at 5
        | split_at 6 | split_at 7 | split_at 8 | split_at 9 | split_at 10 | split_at 11 ].

Ltac traced := apply list_elem_of_In; simpl; tauto.

(** Membership in the trace of a run on the test bench. *)
Ltac evaluated := apply list_elem_of_In; vm_compute; tauto.

(** ** The library models on known values *)

Example resolve_cleans : resolve "/tmp//x/../lcp/./a" = ["tmp"; "lcp"; "a"].
Proof. reflexivity. Qed.

Example Join_parent : filepath_Join "/tmp/lcp-encrypt-7" ".." = "/tmp".
Proof. reflexivity. Qed.

Example Base_last : filepath_Base "a/b/" = "b" /\ filepath_Base "///" = "/".
Proof. split; reflexivity. Qed.

Example RemoveAll_subtree :
  os_RemoveAll "/tmp/w"
    (<[ ["tmp"; "w"; "a"] := IsFile [] ]> (<[ ["tmp"; "w"] := IsDir ]> (<[ ["tmp"] := IsDir ]> ∅)))
  = <[ ["tmp"] := IsDir ]> ∅.
Proof. vm_compute. reflexivity. Qed.

(** The test vectors of RFC 4648. *)
Example base64_vectors :
  map (fun s => base64_EncodeToString (list_byte_of_string s))
      [""; "f"; "fo"; "foo"; "foob"; "fooba"; "foobar"]
  = [""; "Zg=="; "Zm8="; "Zm9v"; "Zm9vYg=="; "Zm9vYmE="; "Zm9vYmFy"].
Proof. reflexivity. Qed.

Example uuid_example :
  uuid_String (uuid_New 0x0123456789abcdef0123456789abcdef)
  = "01234567-89ab-4def-8123-456789abcdef".
Proof. reflexivity. Qed.

(** The identifier is 36 characters long whatever the random bits. *)
Lemma uuid_String_length (rnd : N) : String.length (uuid_String (uuid_New rnd)) = 36.
Proof. reflexivity. Qed.

(** ** The filesystem *)

Lemma RemoveAll_gone (name : string) (fs : FileSystem) (p : list string) :
  resolve name `prefix_of` p -> os_RemoveAll name fs !! p = None.
Proof.
  intros Hp. unfold os_RemoveAll. apply map_lookup_filter_None. right.
  intros x _ Hn. apply Hn. exact Hp.
Qed.

Lemma RemoveAll_elsewhere (name : string) (fs : FileSystem) (p : list string) :
  ¬ resolve name `prefix_of` p -> os_RemoveAll name fs !! p = fs !! p.
Proof.
  intros Hp. unfold os_RemoveAll.
  destruct (fs !! p) as [n|] eqn:Hl.
  - apply map_lookup_filter_Some. split; [exact Hl | exact Hp].
  - apply map_lookup_filter_None. left. exact Hl.
Qed.

(** ** The multipart form *)

Lemma Part_FileName_empty (p : Part) :
  part_filename p = "" -> Part_FileName p = "".
Proof. intros H. unfold Part_FileName. rewrite H. reflexivity. Qed.

Lemma readForm_no_file (spill : option string) (parts : list Part) :
  no_file_part parts ->
  forall (a b : Z) (form f : Form),
    readForm spill parts a b form = Ok f ->
    File f !! "file" = File form !! "file".
Proof.
  induction 1 as [|p parts Hp Hparts IH]; intros a b form f Hrun; simpl in Hrun.
  - injection Hrun as <-. reflexivity.
  - destruct (String.eqb_spec (part_name p) "") as [Hn|Hn].
    { eapply IH; eassumption. }
    destruct (String.eqb_spec (Part_FileName p) "") as [Hf|Hf].
    { destruct (a <? _)%Z; [discriminate|].
      apply IH in Hrun. exact Hrun. }
    assert (part_name p <> "file") as Hne.
    { intros Heq. apply Hp. split; [exact Heq|].
      intros Hempty. apply Hf. apply Part_FileName_empty. exact Hempty. }
    destruct (b <? _)%Z.
    + destruct spill; [discriminate|].
      apply IH in Hrun. rewrite Hrun. simpl. unfold append_at.
      apply lookup_insert_ne. exact Hne.
    + apply IH in Hrun. rewrite Hrun. simpl. unfold append_at.
      apply lookup_insert_ne. exact Hne.
Qed.

Lemma FormFile_missing (spill openErr : option string) (r : Request) (parts : list Part)
    (maxMemory : Z) (pr : ParsedRequest) :
  Body r = Multipart parts ->
  no_file_part parts ->
  ParseMultipartForm spill r maxMemory = Ok pr ->
  FormFile openErr pr "file" = Err "http: no such file".
Proof.
  intros Hbody Hparts Hparse. unfold ParseMultipartForm in Hparse. rewrite Hbody in Hparse.
  unfold multipart_ReadForm in Hparse.
  destruct (readForm _ _ _ _ _) as [f|] eqn:Hread; [|discriminate].
  apply readForm_no_file in Hread; [|exact Hparts].
  destruct (URLQueryErr r); [discriminate|]. injection Hparse as <-.
  unfold FormFile. simpl. rewrite Hread. simpl. rewrite lookup_empty. reflexivity.
Qed.

Lemma readForm_no_title (spill : option string) (parts : list Part) :
  Forall (fun p => part_name p <> "title") parts ->
  forall (a b : Z) (form f : Form),
    readForm spill parts a b form = Ok f ->
    Value f !! "title" = Value form !! "title".
Proof.
  induction 1 as [|p parts Hp Hparts IH]; intros a b form f Hrun; simpl in Hrun.
  - injection Hrun as <-. reflexivity.
  - destruct (String.eqb (part_name p) ""); [eapply IH; eassumption|].
    destruct (String.eqb (Part_FileName p) "").
    + destruct (a <? _)%Z; [discriminate|].
      apply IH in Hrun. rewrite Hrun. simpl. unfold append_at.
      apply lookup_insert_ne. exact Hp.
    + destruct (b <? _)%Z; [destruct spill; [discriminate|]|];
        apply IH in Hrun; exact Hrun.
Qed.

(** A request without a title, in the form or in the query, has the
    empty string as its title value. *)
Lemma FormValue_omitted (spill : option string) (r : Request) (parts : list Part)
    (maxMemory : Z) (pr : ParsedRequest) :
  Body r = Multipart parts ->
  Forall (fun p => part_name p <> "title") parts ->
  URLQuery r !! "title" = None ->
  ParseMultipartForm spill r maxMemory = Ok pr ->
  FormValue pr "title" = "".
Proof.
  intros Hbody Hparts Hquery Hparse. unfold ParseMultipartForm in Hparse.
  rewrite Hbody in Hparse. unfold multipart_ReadForm in Hparse.
  destruct (readForm _ _ _ _ _) as [f|] eqn:Hread; [|discriminate].
  apply readForm_no_title in Hread; [|exact Hparts].
  destruct (URLQueryErr r); [discriminate|]. injection Hparse as <-.
  unfold FormValue. cbn [r_Form]. rewrite lookup_union_with, Hquery, Hread.
  simpl. rewrite lookup_empty. reflexivity.
Qed.

Lemma open_stat (env : Env) (name : string) (fs fs' : FileSystem) (node : Node) :
  open env name fs = (Ok node, fs') -> stat fs (resolve name) = Some node /\ fs' = fs.
Proof.
  unfold open, os_Open. destruct (OpenErr env); [discriminate|].
  destruct (stat fs (resolve name)); [|discriminate].
  intros H. injection H as -> ->. split; reflexivity.
Qed.

Lemma parse_upload (content : list byte) :
  ParseMultipartForm None (post [upload "book.epub" content]) (Z.shiftl 50 20)
  = Ok (stored (Z.shiftl 50 20 <? Z.of_nat (length content))%Z content).
Proof.
  unfold ParseMultipartForm, multipart_ReadForm, post, upload, readForm.
  cbn [Body URLQueryErr URLQuery part_name part_filename part_content].
  change (Part_FileName _) with "book.epub".
  cbn [String.eqb Ascii.eqb Bool.eqb].
  destruct (Z.shiftl 50 20 <? Z.of_nat (length content))%Z; reflexivity.
Qed.

(** ** What [ParseMultipartForm] does to the filesystem *)

Lemma CreateTemp_fresh (env : Env) (dir pattern name : string) (fs fs' : FileSystem) :
  os_CreateTemp env dir pattern fs = (Ok name, fs') ->
  fs !! resolve name = None /\ fs' = <[resolve name := IsFile []]> fs.
Proof.
  unfold os_CreateTemp. destruct (prefixAndSuffix pattern) as [prefix suffix].
  set (n := joinPath _ _ +:+ _ +:+ _). unfold os_OpenFile_EXCL.
  destruct (stat fs (removelast (resolve n))) as [[|]|]; try discriminate.
  destruct (stat fs (resolve n)) as [|] eqn:Hstat; [discriminate|].
  intros H. injection H as <- <-. split; [|reflexivity].
  destruct (resolve n); [discriminate Hstat|exact Hstat].
Qed.

(** It leaves the filesystem as it was or adds one file under a name
    that was free. *)
Lemma spill_to_disk_cases (env : Env) (r : Request) (maxMemory : Z) (fs : FileSystem) :
  spill_to_disk env r maxMemory fs = fs \/
  exists name content,
    fs !! resolve name = None /\
    spill_to_disk env r maxMemory fs = <[resolve name := IsFile content]> fs.
Proof.
  unfold spill_to_disk. destruct (Body r) as [|parts]; [left; reflexivity|].
  destruct (multipart_ReadForm _ _ _); [|left; reflexivity].
  destruct (spilled parts maxMemory) as [|chunk chunks]; [left; reflexivity|].
  destruct (os_CreateTemp env "" "multipart-" fs) as [[name|e] fs'] eqn:Htemp;
    [|left; reflexivity].
  apply CreateTemp_fresh in Htemp. destruct Htemp as [Hfree ->].
  right. exists name, (concat (chunk :: chunks)). split; [exact Hfree|].
  apply insert_insert_eq.
Qed.

Lemma spill_to_disk_keeps (env : Env) (r : Request) (maxMemory : Z) (fs : FileSystem)
    (p : list string) (n : Node) :
  fs !! p = Some n -> spill_to_disk env r maxMemory fs !! p = Some n.
Proof.
  intros Hp. destruct (spill_to_disk_cases env r maxMemory fs) as [->|(name & c & Hfree & ->)];
    [exact Hp|].
  rewrite lookup_insert_ne; [exact Hp|]. intros <-. congruence.
Qed.

Lemma spill_to_disk_no_dir (env : Env) (r : Request) (maxMemory : Z) (fs : FileSystem)
    (p : list string) :
  spill_to_disk env r maxMemory fs !! p = Some IsDir -> fs !! p = Some IsDir.
Proof.
  destruct (spill_to_disk_cases env r maxMemory fs) as [->|(name & c & Hfree & ->)];
    [tauto|].
  destruct (decide (resolve name = p)) as [<-|Hne].
  - rewrite lookup_insert_eq. discriminate.
  - rewrite lookup_insert_ne; [tauto|exact Hne].
Qed.

(** When the parse fails in the body, nothing is left on disk. *)
Lemma spill_to_disk_failed (env : Env) (r : Request) (parts : list Part) (maxMemory : Z)
    (fs : FileSystem) (e : string) :
  Body r = Multipart parts ->
  multipart_ReadForm (spill_error env fs) parts maxMemory = Err e ->
  spill_to_disk env r maxMemory fs = fs.
Proof. intros Hbody Hread. unfold spill_to_disk. rewrite Hbody, Hread. reflexivity. Qed.

(** ** The stub engine keeps the contract *)

Lemma stub_engine_describes_artifact : engine_describes_artifact stub_engine.
Proof.
  intros args fs pub fs' H. unfold stub_engine in H.
  destruct (stat fs (resolve (encrypt.inputPath args))) as [[input|]|]; try discriminate.
  destruct (os_Create _ fs) as [fs1|e] eqn:Hc; [|discriminate].
  injection H as <- <-. cbn [encrypt.FileName encrypt.Size].
  exists (rev input). split; [|reflexivity].
  unfold os_Create in Hc.
  destruct (resolve (filepath_Join _ _)) as [|c p] eqn:Hp.
  - simpl in Hc. discriminate.
  - simpl. apply lookup_insert_eq.
Qed.

(** ** The JSON encoder *)

Lemma json_Marshal_EncryptResponse (quote : string -> string) (m : EncryptResponse) :
  json_Marshal quote (EncryptResponse_value m) = Ok (EncryptResponse_json quote m).
Proof. reflexivity. Qed.

Lemma marshal_scalar (quote : string -> string) (v : GoValue) :
  scalar v -> exists s, marshal_value quote v = Ok s.
Proof. destruct v; simpl; intros H; try contradiction; eexists; reflexivity. Qed.

Lemma marshal_scalar_fields (quote : string -> string) (fields : list (string * GoValue)) :
  Forall (fun kv => scalar kv.2) fields ->
  forall first, exists s, marshal_fields quote (marshal_value quote) first fields = Ok s.
Proof.
  induction 1 as [|[k v] fields Hv _ IH]; intros first; simpl.
  - eexists; reflexivity.
  - destruct (marshal_scalar quote v Hv) as [sv ->].
    destruct (IH false) as [rest ->]. eexists; reflexivity.
Qed.

(** A struct of strings, integers and booleans always encodes. *)
Lemma json_Marshal_scalar_struct (quote : string -> string) (fields : list (string * GoValue)) :
  Forall (fun kv => scalar kv.2) fields ->
  exists s, json_Marshal quote (VStruct fields) = Ok s.
Proof.
  intros H. unfold json_Marshal. simpl.
  destruct (marshal_scalar_fields quote fields H true) as [body ->]. eexists; reflexivity.
Qed.

(** A struct with a channel in it does not. *)
Example json_Marshal_refuses_chan :
  json_Marshal stub_quote (VStruct [("uuid", VString "x"); ("done", VChan)])
  = Err "json: unsupported type: chan".
Proof. reflexivity. Qed.

(** ** The handler, for every request, environment, engine and encoder *)

Section Runs.

  Variables (env : Env) (E : encrypt.Engine) (M : GoValue -> Result string).
  Variables (r : Request) (fs0 : FileSystem).

  Local Abbreviation final := (EncryptEPUB env E M r (serving fs0)).

(** C1. Once the handler has created its temporary directory, nothing
    is left at or beneath that directory when the handler returns,
    whichever way it returns: [os.RemoveAll] runs on it exactly once, as
    the last action on the filesystem. *)
Theorem workspace_removed_on_every_exit (tempDir : string) :
  EvMkdirTemp "lcp-encrypt-*" (Ok tempDir) ∈ trace final ->
  (forall p, resolve tempDir `prefix_of` p -> fs final !! p = None) /\
  removals (trace final) = [tempDir] /\
  exists before, trace final = before ++ [EvRemoveAll tempDir; EvClose "file"].
Proof.
  go_run; intros Hin; in_trace Hin;
    match goal with H : EvMkdirTemp _ _ = EvMkdirTemp _ _ |- _ => injection H as -> end.
  all: split; [intros p Hp; apply RemoveAll_gone; exact Hp|].
  all: split; [reflexivity|].
  all: match goal with |- exists b, ?l = _ => exists (take (length l - 2) l); reflexivity end.
Qed.

(** C5. A multipart form without a file part named [file] is answered
    with status 400; [os.MkdirTemp] is not called, nothing is removed,
    and no directory exists afterwards that did not exist before. *)
Theorem missing_file_rejected_without_workspace (parts : list Part) :
  Body r = Multipart parts ->
  no_file_part parts ->
  response_status (resp final) = Some 400%Z /\
  (forall pattern res, EvMkdirTemp pattern res ∉ trace final) /\
  removals (trace final) = [] /\
  (forall p, fs final !! p = Some IsDir -> fs0 !! p = Some IsDir).
Proof.
  intros Hbody Hparts. go_red. go_case; go_red.
  2:{ split; [reflexivity|]. split; [intros pattern res Hin; in_trace Hin|].
      split; [reflexivity|]. intros p. apply spill_to_disk_no_dir. }
  pose proof (FormFile_missing _ (UploadOpenErr env) _ _ _ _ Hbody Hparts Hparse) as Hmiss.
  rewrite Hmiss. go_red.
  split; [reflexivity|]. split; [intros pattern res Hin; in_trace Hin|].
  split; [reflexivity|]. intros p. apply spill_to_disk_no_dir.
Qed.

(** C7. Every failed call leads to the reply of its class: 400 for a
    payload that does not parse and for a missing file, 500 for the
    internal failures, with a plain-text body; the failed call is the
    last one: everything before it went well and only deferred cleanup
    follows, so nothing is retried or recovered. *)
Theorem failures_reply_and_stop (e : Event) (code : Z) (text : string) :
  e ∈ trace final ->
  failure_reply e = Some (code, text) ->
  plain_reply code text (resp final) /\
  exists before cleanup,
    trace final = before ++ e :: cleanup /\
    Forall went_well before /\ Forall is_cleanup cleanup.
Proof.
  go_run; intros Hin Hfail; in_trace Hin; subst e; try discriminate Hfail;
    injection Hfail as <- <-.
  all: split;
    [ split; [reflexivity|]; split; [resp_red; rewrite ?app_nil_r; try reflexivity|
                                     resp_red; rewrite ?app_nil_r; reflexivity] |].
  all: try (apply lookup_insert_ne; discriminate).
  all: split_trace.
Qed.

(** C8. A request that gets as far as creating the output directory
    calls the engine exactly once: with the identifier printed from the
    fresh random UUID, an empty content key, the staged input file, the
    output directory, and every other parameter empty or false. *)
Theorem engine_invoked_once_with_defaults (outputDir : string) :
  EvMkdirAll outputDir (Ok tt) ∈ trace final ->
  exists tempDir file header res,
    EvFormFile "file" (Ok (file, header)) ∈ trace final /\
    EvMkdirTemp "lcp-encrypt-*" (Ok tempDir) ∈ trace final /\
    EvCopy (filepath_Join tempDir (Filename header)) (Ok tt) ∈ trace final /\
    outputDir = filepath_Join tempDir "output" /\
    engine_calls (trace final) =
      [ ({| encrypt.contentID := uuid_String (uuid_New (RandomUUID env));
            encrypt.contentKey := "";
            encrypt.inputPath := filepath_Join tempDir (Filename header);
            encrypt.tempRepo := "";
            encrypt.outputRepo := outputDir;
            encrypt.storageRepo := "";
            encrypt.storageURL := "";
            encrypt.storageFilename := "";
            encrypt.extractCover := false;
            encrypt.pdfNoMeta := false |}, res) ].
Proof.
  go_run; intros Hin; in_trace Hin;
    match goal with H : EvMkdirAll _ _ = EvMkdirAll _ _ |- _ => injection H as <- end.
  all: do 4 eexists.
  all: split; [traced|].
  all: split; [traced|].
  all: split; [traced|].
  all: split; reflexivity.
Qed.

(** A request that does not get that far never calls the engine. *)
Lemma engine_not_invoked_earlier :
  (forall outputDir, EvMkdirAll outputDir (Ok tt) ∉ trace final) ->
  engine_calls (trace final) = [].
Proof.
  go_run; intros Hnot; try reflexivity.
  all: exfalso; eapply Hnot; traced.
Qed.

(** C2. When a request completes, the engine was called once, and the
    size, key and checksum in the metadata header and the streamed body
    go back to that one call: the body is the content of the file the
    descriptor names in the output directory, the key is the base64 text
    of the descriptor's key, the checksum is the descriptor's; and, the
    engine describing what it wrote, the size is the byte length of the
    body. *)
Theorem metadata_describes_streamed_body :
  engine_describes_artifact E ->
  completed final ->
  exists args pub m json,
    engine_calls (trace final) = [(args, Ok pub)] /\
    EvOpen (filepath_Join (encrypt.outputRepo args) (encrypt.FileName pub))
           (Ok (IsFile (response_body (resp final)))) ∈ trace final /\
    EvMarshal (EncryptResponse_value m) (Ok json) ∈ trace final /\
    response_header (resp final) !! "X-Encrypt-Metadata" = Some json /\
    Size m = N.of_nat (length (response_body (resp final))) /\
    EncryptionKey m = base64_EncodeToString (encrypt.EncryptionKey pub) /\
    Checksum m = encrypt.Checksum pub.
Proof.
  intros Hcontract. go_run; intros Hin; in_trace Hin.
  destruct (Hcontract _ _ _ _ Hengine) as (artifact & Hstat & Hsize).
  cbn [encrypt.outputRepo] in Hstat.
  apply open_stat in Hopen. destruct Hopen as [Hopen _].
  rewrite Hopen in Hstat. injection Hstat as <-.
  do 4 eexists. split; [reflexivity|].
  resp_red. rewrite app_nil_r.
  split; [traced|]. split; [traced|]. split; [reflexivity|].
  split; [exact Hsize|]. split; reflexivity.
Qed.

End Runs.

(** ** The handler with Go's JSON encoder *)

Section JsonRuns.

  Variables (env : Env) (E : encrypt.Engine) (r : Request) (fs0 : FileSystem).
  Variable quote : string -> string.

  Local Abbreviation final_json := (EncryptEPUB env E (json_Marshal quote) r (serving fs0)).

(** C6. A completed request has sent, in this order: the status 200
    with exactly three headers, then the artifact.  The metadata header
    is the JSON object of the seven fields, taken from the descriptor,
    with the key in base64 and the title after the override; the content
    type is the descriptor's; the disposition names the descriptor's
    file as an attachment. *)
Theorem success_response :
  completed final_json ->
  exists pr args pub artifact,
    EvParseMultipartForm (Z.shiftl 50 20) (Ok pr) ∈ trace final_json /\
    engine_calls (trace final_json) = [(args, Ok pub)] /\
    EvOpen (filepath_Join (encrypt.outputRepo args) (encrypt.FileName pub))
           (Ok (IsFile artifact)) ∈ trace final_json /\
    Wire (resp final_json) =
      [ WHeader 200
          (<["Content-Disposition" :=
               "attachment; filename=" +:+ dquote +:+ encrypt.FileName pub +:+ dquote]>
           (<["Content-Type" := encrypt.ContentType pub]>
            (<["X-Encrypt-Metadata" :=
                 EncryptResponse_json quote
                   {| UUID := encrypt.UUID pub;
                      EncryptionKey := base64_EncodeToString (encrypt.EncryptionKey pub);
                      Size := encrypt.Size pub;
                      Checksum := encrypt.Checksum pub;
                      ContentType := encrypt.ContentType pub;
                      Title := if String.eqb (FormValue pr "title") ""
                               then encrypt.Title pub else FormValue pr "title";
                      FileName := encrypt.FileName pub |}]> ∅)));
        WData artifact ].
Proof.
  go_run; intros Hin; in_trace Hin.
  rewrite json_Marshal_EncryptResponse in Hjson. injection Hjson as <-.
  do 4 eexists. split; [traced|]. split; [reflexivity|]. split; [traced|].
  resp_red. destruct (FormValue pr "title" =? ""); reflexivity.
Qed.

(** C10. Every field of the metadata record is a string or an unsigned
    integer, so [json.Marshal] succeeds on it, whatever the descriptor;
    the handler never sees the encoder fail. *)
Theorem metadata_always_serializes :
  (forall m, Forall (fun kv => scalar kv.2)
               (match EncryptResponse_value m with VStruct fields => fields | _ => [] end)) /\
  (forall m, exists json, json_Marshal quote (EncryptResponse_value m) = Ok json) /\
  (forall v e, EvMarshal v (Err e) ∉ trace final_json).
Proof.
  split; [|split].
  - intros m. simpl. repeat constructor.
  - intros m. apply json_Marshal_scalar_struct. simpl. repeat constructor.
  - go_run; intros v e Hin; in_trace Hin.
    rewrite json_Marshal_EncryptResponse in Hjson. discriminate Hjson.
Qed.

(** C9. Which content keys the engine hands out makes no difference to
    the log, nor to the response apart from the metadata header; an
    error response is the same whatever the key, and the metadata header
    is only ever sent with status 200 (where, by C6, it carries the key
    in base64). *)
Theorem content_key_stays_out_of_logs_and_errors
    (k : encrypt.Args -> FileSystem -> list byte) :
  let w1 := EncryptEPUB env E (json_Marshal quote) r (serving fs0) in
  let w2 := EncryptEPUB env (rekey k E) (json_Marshal quote) r (serving fs0) in
  logs w1 = logs w2 /\
  without_metadata (resp w1) = without_metadata (resp w2) /\
  (response_status (resp w1) <> Some 200%Z -> resp w1 = resp w2) /\
  (forall v, response_header (resp w1) !! "X-Encrypt-Metadata" = Some v ->
             response_status (resp w1) = Some 200%Z).
Proof.
  intros w1 w2; subst w1 w2. go_run.
  all: rewrite ?json_Marshal_EncryptResponse in *; try discriminate.
  all: split; [reflexivity|].
  all: split;
    [ first [ reflexivity
            | resp_red;
              rewrite !(delete_insert_ne _ "X-Encrypt-Metadata") by discriminate;
              rewrite !delete_insert_eq; reflexivity ] |].
  all: split;
    [ first [ intros _; reflexivity | intros H; exfalso; apply H; reflexivity ] |].
  all: first [ intros v _; reflexivity | intros v H; vm_compute in H; discriminate H ].
Qed.

End JsonRuns.

(** ** The payload limit *)

(** A single upload that does not fit in memory is on disk after the
    parse, in the temporary directory. *)
Lemma spill_upload (content : list byte) :
  spill_to_disk calm (post [upload "book.epub" content]) (Z.shiftl 50 20) disk
  = if (Z.shiftl 50 20 <? Z.of_nat (length content))%Z
    then <[ ["tmp"; "multipart-7"] := IsFile content ]> disk
    else disk.
Proof.
  unfold spill_to_disk, multipart_ReadForm, post, upload, readForm, spilled.
  cbn [Body URLQueryErr URLQuery part_name part_filename part_content].
  change (Part_FileName _) with "book.epub".
  cbn [String.eqb Ascii.eqb Bool.eqb].
  change (spill_error calm disk) with (@None string).
  destruct (Z.shiftl 50 20 <? Z.of_nat (length content))%Z; [|reflexivity].
  change (os_CreateTemp calm "" "multipart-" disk)
    with (@Ok string "/tmp/multipart-7", <[ ["tmp"; "multipart-7"] := IsFile [] ]> disk).
  cbn [concat]. rewrite app_nil_r.
  change (resolve "/tmp/multipart-7") with ["tmp"; "multipart-7"].
  apply insert_insert_eq.
Qed.

Lemma upload_accepted (content : list byte) :
  response_status
    (resp (EncryptEPUB calm stub_engine (json_Marshal stub_quote)
             (post [upload "book.epub" content]) (serving disk)))
  = Some 200%Z.
Proof.
  go_red. change (spill_error calm disk) with (@None string).
  rewrite parse_upload, spill_upload.
  destruct (Z.shiftl 50 20 <? Z.of_nat (length content))%Z; vm_compute; reflexivity.
Qed.

(** C3 fails on the code.  The argument of [ParseMultipartForm] bounds
    the memory used for file parts, not the size of the body: a file
    part of 50 MiB and one byte is stored on disk and the request is
    served with status 200. *)
Theorem oversized_upload_is_accepted :
  let content := replicate (N.to_nat 52428801) x00 in
  (payload_size [upload "book.epub" content] > Z.shiftl 50 20)%Z /\
  response_status
    (resp (EncryptEPUB calm stub_engine (json_Marshal stub_quote)
             (post [upload "book.epub" content]) (serving disk)))
  = Some 200%Z.
Proof.
  intros content. split.
  - unfold payload_size, upload, fold_right, part_content, content.
    rewrite length_replicate, N_nat_Z. reflexivity.
  - apply upload_accepted.
Qed.

(** X15. A file part too large for memory that comes under another
    field name: the request is refused for its missing file, and the
    part is in the temporary file of the parser when the handler
    returns. *)
Theorem spilled_part_outlives_rejection (content : list byte) :
  (Z.shiftl 50 20 < Z.of_nat (length content))%Z ->
  response_status
    (resp (EncryptEPUB calm stub_engine (json_Marshal stub_quote)
             (misnamed_upload content) (serving disk)))
  = Some 400%Z /\
  fs (EncryptEPUB calm stub_engine (json_Marshal stub_quote)
        (misnamed_upload content) (serving disk))
  = <[ ["tmp"; "multipart-7"] := IsFile content ]> disk.
Proof.
  intros Hbig. apply Z.ltb_lt in Hbig.
  assert (spill_to_disk calm (misnamed_upload content) (Z.shiftl 50 20) disk
          = <[ ["tmp"; "multipart-7"] := IsFile content ]> disk) as Hfs.
  { unfold spill_to_disk, multipart_ReadForm, misnamed_upload, post, readForm, spilled.
    cbn [Body URLQueryErr URLQuery part_name part_filename part_content].
    change (Part_FileName _) with "big.bin".
    cbn [String.eqb Ascii.eqb Bool.eqb].
    change (spill_error calm disk) with (@None string).
    rewrite Hbig.
    change (os_CreateTemp calm "" "multipart-" disk)
      with (@Ok string "/tmp/multipart-7", <[ ["tmp"; "multipart-7"] := IsFile [] ]> disk).
    cbn [concat]. rewrite app_nil_r.
    change (resolve "/tmp/multipart-7") with ["tmp"; "multipart-7"].
    apply insert_insert_eq. }
  go_red. rewrite Hfs.
  unfold ParseMultipartForm, multipart_ReadForm, misnamed_upload, post, readForm.
  cbn [Body URLQueryErr URLQuery part_name part_filename part_content].
  change (Part_FileName _) with "big.bin".
  cbn [String.eqb Ascii.eqb Bool.eqb].
  change (spill_error calm disk) with (@None string).
  rewrite Hbig. split; reflexivity.
Qed.

Lemma spilled_part_witness :
  (Z.shiftl 50 20 < Z.of_nat (length oversized))%Z /\
  (response_status
     (resp (EncryptEPUB calm stub_engine (json_Marshal stub_quote)
              (misnamed_upload oversized) (serving disk)))
   = Some 400%Z /\
   fs (EncryptEPUB calm stub_engine (json_Marshal stub_quote)
         (misnamed_upload oversized) (serving disk))
   = <[ ["tmp"; "multipart-7"] := IsFile oversized ]> disk).
Proof.
  assert (Z.shiftl 50 20 < Z.of_nat (length oversized))%Z as H.
  { unfold oversized. rewrite length_replicate, N_nat_Z. reflexivity. }
  split; [exact H|].
  exact (spilled_part_outlives_rejection oversized H).
Defined.

(** ** The properties at work on the test bench *)

Lemma workspace_removed_witness :
  EvMkdirTemp "lcp-encrypt-*" (Ok "/tmp/lcp-encrypt-42")
    ∈ trace (EncryptEPUB hangup stub_engine (json_Marshal stub_quote) titled_upload (serving disk)) /\
  ((forall p, resolve "/tmp/lcp-encrypt-42" `prefix_of` p ->
      fs (EncryptEPUB hangup stub_engine (json_Marshal stub_quote) titled_upload (serving disk)) !! p = None) /\
   removals (trace (EncryptEPUB hangup stub_engine (json_Marshal stub_quote) titled_upload (serving disk)))
     = ["/tmp/lcp-encrypt-42"] /\
   exists before,
     trace (EncryptEPUB hangup stub_engine (json_Marshal stub_quote) titled_upload (serving disk))
     = before ++ [EvRemoveAll "/tmp/lcp-encrypt-42"; EvClose "file"]).
Proof.
  assert (EvMkdirTemp "lcp-encrypt-*" (Ok "/tmp/lcp-encrypt-42")
    ∈ trace (EncryptEPUB hangup stub_engine (json_Marshal stub_quote) titled_upload (serving disk)))
    as H by evaluated.
  split; [exact H|].
  exact (workspace_removed_on_every_exit hangup stub_engine (json_Marshal stub_quote)
           titled_upload disk "/tmp/lcp-encrypt-42" H).
Defined.

Lemma missing_file_witness :
  (Body no_upload = Multipart [field "title" "My Book"] /\
   no_file_part [field "title" "My Book"]) /\
  (response_status (resp (EncryptEPUB calm stub_engine (json_Marshal stub_quote) no_upload (serving disk)))
     = Some 400%Z /\
   (forall pattern res,
      EvMkdirTemp pattern res
        ∉ trace (EncryptEPUB calm stub_engine (json_Marshal stub_quote) no_upload (serving disk))) /\
   removals (trace (EncryptEPUB calm stub_engine (json_Marshal stub_quote) no_upload (serving disk))) = [] /\
   (forall p,
      fs (EncryptEPUB calm stub_engine (json_Marshal stub_quote) no_upload (serving disk)) !! p
        = Some IsDir ->
      disk !! p = Some IsDir)).
Proof.
  assert (no_file_part [field "title" "My Book"]) as H.
  { constructor; [|constructor]. simpl. intros [H _]. discriminate H. }
  split; [split; [reflexivity|exact H]|].
  exact (missing_file_rejected_without_workspace calm stub_engine (json_Marshal stub_quote)
           no_upload disk [field "title" "My Book"] eq_refl H).
Defined.

Lemma metadata_describes_body_witness :
  (engine_describes_artifact stub_engine /\ completed bench_run) /\
  exists args pub m json,
    engine_calls (trace bench_run) = [(args, Ok pub)] /\
    EvOpen (filepath_Join (encrypt.outputRepo args) (encrypt.FileName pub))
           (Ok (IsFile (response_body (resp bench_run)))) ∈ trace bench_run /\
    EvMarshal (EncryptResponse_value m) (Ok json) ∈ trace bench_run /\
    response_header (resp bench_run) !! "X-Encrypt-Metadata" = Some json /\
    Size m = N.of_nat (length (response_body (resp bench_run))) /\
    EncryptionKey m = base64_EncodeToString (encrypt.EncryptionKey pub) /\
    Checksum m = encrypt.Checksum pub.
Proof.
  assert (completed bench_run) as H by (unfold completed; evaluated).
  split; [split; [exact stub_engine_describes_artifact|exact H]|].
  exact (metadata_describes_streamed_body calm stub_engine (json_Marshal stub_quote)
           titled_upload disk stub_engine_describes_artifact H).
Defined.

Lemma success_response_witness :
  completed bench_run /\
  exists pr args pub artifact,
    EvParseMultipartForm (Z.shiftl 50 20) (Ok pr) ∈ trace bench_run /\
    engine_calls (trace bench_run) = [(args, Ok pub)] /\
    EvOpen (filepath_Join (encrypt.outputRepo args) (encrypt.FileName pub))
           (Ok (IsFile artifact)) ∈ trace bench_run /\
    Wire (resp bench_run) =
      [ WHeader 200
          (<["Content-Disposition" :=
               "attachment; filename=" +:+ dquote +:+ encrypt.FileName pub +:+ dquote]>
           (<["Content-Type" := encrypt.ContentType pub]>
            (<["X-Encrypt-Metadata" :=
                 EncryptResponse_json stub_quote
                   {| UUID := encrypt.UUID pub;
                      EncryptionKey := base64_EncodeToString (encrypt.EncryptionKey pub);
                      Size := encrypt.Size pub;
                      Checksum := encrypt.Checksum pub;
                      ContentType := encrypt.ContentType pub;
                      Title := if String.eqb (FormValue pr "title") ""
                               then encrypt.Title pub else FormValue pr "title";
                      FileName := encrypt.FileName pub |}]> ∅)));
        WData artifact ].
Proof.
  assert (completed bench_run) as H by (unfold completed; evaluated).
  split; [exact H|].
  exact (success_response calm stub_engine titled_upload disk stub_quote H).
Defined.

Lemma failures_reply_witness :
  (EvProcessEncryption bench_args (Err "not an EPUB") ∈ trace bench_refused /\
   failure_reply (EvProcessEncryption bench_args (Err "not an EPUB"))
     = Some (500%Z, "encryption failed: not an EPUB")) /\
  (plain_reply 500 "encryption failed: not an EPUB" (resp bench_refused) /\
   exists before cleanup,
     trace bench_refused
       = before ++ EvProcessEncryption bench_args (Err "not an EPUB") :: cleanup /\
     Forall went_well before /\ Forall is_cleanup cleanup).
Proof.
  assert (EvProcessEncryption bench_args (Err "not an EPUB") ∈ trace bench_refused)
    as H by evaluated.
  split; [split; [exact H|reflexivity]|].
  exact (failures_reply_and_stop calm failing_engine (json_Marshal stub_quote) titled_upload disk
           (EvProcessEncryption bench_args (Err "not an EPUB"))
           500%Z "encryption failed: not an EPUB" H eq_refl).
Defined.

Lemma engine_invoked_witness :
  EvMkdirAll "/tmp/lcp-encrypt-42/output" (Ok tt) ∈ trace bench_run /\
  exists tempDir file header res,
    EvFormFile "file" (Ok (file, header)) ∈ trace bench_run /\
    EvMkdirTemp "lcp-encrypt-*" (Ok tempDir) ∈ trace bench_run /\
    EvCopy (filepath_Join tempDir (Filename header)) (Ok tt) ∈ trace bench_run /\
    "/tmp/lcp-encrypt-42/output" = filepath_Join tempDir "output" /\
    engine_calls (trace bench_run) =
      [ ({| encrypt.contentID := uuid_String (uuid_New (RandomUUID calm));
            encrypt.contentKey := "";
            encrypt.inputPath := filepath_Join tempDir (Filename header);
            encrypt.tempRepo := "";
            encrypt.outputRepo := "/tmp/lcp-encrypt-42/output";
            encrypt.storageRepo := "";
            encrypt.storageURL := "";
            encrypt.storageFilename := "";
            encrypt.extractCover := false;
            encrypt.pdfNoMeta := false |}, res) ].
Proof.
  assert (EvMkdirAll "/tmp/lcp-encrypt-42/output" (Ok tt) ∈ trace bench_run) as H by evaluated.
  split; [exact H|].
  exact (engine_invoked_once_with_defaults calm stub_engine (json_Marshal stub_quote)
           titled_upload disk "/tmp/lcp-encrypt-42/output" H).
Defined.

Example bench_reply :
  response_status (resp bench_run) = Some 200%Z /\
  response_body (resp bench_run) = list_byte_of_string "olleh" /\
  response_header (resp bench_run) !! "Content-Type" = Some "application/epub+zip" /\
  fs bench_run = disk /\
  logs bench_run =
    [ (InfoLevel, "EncryptEPUB: request received");
      (InfoLevel, "EncryptEPUB: success, uuid=00000000-0000-4000-8000-000000000000, title=My Book, size=5") ].
Proof. vm_compute. repeat split. Qed.

Example bench_hangup :
  let w := EncryptEPUB hangup stub_engine (json_Marshal stub_quote) titled_upload (serving disk) in
  response_status (resp w) = Some 200%Z /\
  response_body (resp w) = list_byte_of_string "ol" /\
  fs w = disk /\
  logs w =
    [ (InfoLevel, "EncryptEPUB: request received");
      (ErrorLevel, "EncryptEPUB: failed to stream encrypted file: write: broken pipe") ].
Proof. vm_compute. repeat split. Qed.

Example bench_untitled_reply :
  response_status (resp bench_untitled) = Some 200%Z /\
  logs bench_untitled =
    [ (InfoLevel, "EncryptEPUB: request received");
      (InfoLevel, "EncryptEPUB: success, uuid=00000000-0000-4000-8000-000000000000, title=Embedded Title, size=5") ].
Proof. vm_compute. repeat split. Qed.

Example bench_unserialized_reply :
  plain_reply 500 "internal server error" (resp bench_unserialized) /\
  fs bench_unserialized = disk /\
  logs bench_unserialized =
    [ (InfoLevel, "EncryptEPUB: request received");
      (ErrorLevel, "EncryptEPUB: failed to marshal metadata: json: error calling MarshalJSON") ].
Proof. vm_compute. repeat split. Qed.

(** * Further properties *)

(** ** Paths *)

Lemma append_snoc (a : string) (c : ascii) (b : string) :
  (a +:+ String c EmptyString) +:+ b = a +:+ String c b.
Proof.
  induction a as [|x a IH]; [reflexivity|].
  change ((String x a +:+ String c EmptyString) +:+ b)
    with (String x ((a +:+ String c EmptyString) +:+ b)).
  change (String x a +:+ String c b) with (String x (a +:+ String c b)).
  rewrite IH. reflexivity.
Qed.

Lemma append_empty_r (a : string) : a +:+ "" = a.
Proof.
  induction a as [|x a IH]; [reflexivity|].
  change (String x a +:+ "") with (String x (a +:+ "")). rewrite IH. reflexivity.
Qed.

Lemma has_slash_append (a b : string) :
  has_slash (a +:+ b) = has_slash a || has_slash b.
Proof.
  induction a as [|x a IH]; [reflexivity|].
  change (String x a +:+ b) with (String x (a +:+ b)).
  cbn [has_slash]. rewrite IH. apply orb_assoc.
Qed.

Lemma split_no_slash (c cur : string) :
  has_slash c = false -> split_slash_go c cur = [cur +:+ c].
Proof.
  revert cur. induction c as [|x c IH]; intros cur H; simpl in *.
  - rewrite append_empty_r. reflexivity.
  - apply orb_false_elim in H. destruct H as [Hx Hc]. rewrite Hx.
    rewrite IH by exact Hc. rewrite append_snoc. reflexivity.
Qed.

Lemma split_app_slash (a b cur : string) :
  split_slash_go (a +:+ String "/" b) cur = split_slash_go a cur ++ split_slash_go b "".
Proof.
  revert cur. induction a as [|x a IH]; intros cur; simpl.
  - reflexivity.
  - destruct (Ascii.eqb x "/"); rewrite IH; reflexivity.
Qed.

Lemma split_components (s cur : string) :
  has_slash cur = false ->
  Forall (fun c => has_slash c = false) (split_slash_go s cur).
Proof.
  revert cur. induction s as [|x s IH]; intros cur H; simpl.
  - constructor; [exact H|constructor].
  - destruct (Ascii.eqb x "/") eqn:Hx.
    + constructor; [exact H|]. apply IH. reflexivity.
    + apply IH. rewrite has_slash_append, H. simpl. rewrite Hx. reflexivity.
Qed.

Lemma Forall_removelast {A : Type} (P : A -> Prop) (l : list A) :
  Forall P l -> Forall P (removelast l).
Proof.
  induction 1 as [|x l Hx Hl IH]; simpl; [constructor|].
  destruct l; [constructor|]. constructor; assumption.
Qed.

Lemma resolve_step_cases (p : list string) (c : string) :
  has_slash c = false ->
  (plain c /\ resolve_step p c = p ++ [c]) \/
  (c = ".." /\ resolve_step p c = removelast p) \/
  ((c = "" \/ c = ".") /\ resolve_step p c = p).
Proof.
  intros Hc. unfold resolve_step.
  destruct (String.eqb_spec c "") as [->|H1]; [right; right; auto|].
  destruct (String.eqb_spec c ".") as [->|H2]; [right; right; auto|].
  destruct (String.eqb_spec c "..") as [->|H3]; [right; left; auto|].
  left. unfold plain. auto.
Qed.

Lemma resolve_step_plain (p : list string) (c : string) :
  plain c -> resolve_step p c = p ++ [c].
Proof.
  intros (Hs & H1 & H2 & H3). unfold resolve_step.
  destruct (String.eqb_spec c ""); [contradiction|].
  destruct (String.eqb_spec c "."); [contradiction|].
  destruct (String.eqb_spec c ".."); [contradiction|]. reflexivity.
Qed.

Lemma resolve_from_plain (cs acc : list string) :
  Forall (fun c => has_slash c = false) cs -> Forall plain acc ->
  Forall plain (fold_left resolve_step cs acc).
Proof.
  revert acc. induction cs as [|c cs IH]; intros acc Hcs Hacc; simpl; [exact Hacc|].
  inversion Hcs as [|? ? Hc Hcs']; subst. apply IH; [exact Hcs'|].
  destruct (resolve_step_cases acc c Hc) as [[Hp ->]|[[_ ->]|[_ ->]]].
  - apply Forall_app; split; [exact Hacc|]. constructor; [exact Hp|constructor].
  - apply Forall_removelast. exact Hacc.
  - exact Hacc.
Qed.

Lemma resolve_plain (name : string) : Forall plain (resolve name).
Proof.
  unfold resolve. apply resolve_from_plain; [|constructor].
  apply split_components. reflexivity.
Qed.

Lemma fold_plain (p acc : list string) :
  Forall plain p -> fold_left resolve_step p acc = acc ++ p.
Proof.
  revert acc. induction p as [|c p IH]; intros acc H; simpl.
  - rewrite app_nil_r. reflexivity.
  - inversion H as [|? ? Hc Hp]; subst. rewrite resolve_step_plain by exact Hc.
    rewrite IH by exact Hp. rewrite <- app_assoc. reflexivity.
Qed.

Lemma split_concat (p : list string) :
  Forall plain p -> p <> [] -> split_slash_go (String.concat "/" p) "" = p.
Proof.
  induction p as [|c p IH]; intros H Hne; [contradiction|].
  inversion H as [|? ? Hc Hp]; subst. destruct p as [|c2 p].
  - simpl. apply split_no_slash. apply Hc.
  - change (String.concat "/" (c :: c2 :: p))
      with (c +:+ String "/" (String.concat "/" (c2 :: p))).
    rewrite split_app_slash.
    rewrite (IH Hp) by discriminate.
    rewrite split_no_slash by apply Hc. reflexivity.
Qed.

(** Cleaning a name does not change what it resolves to. *)
Lemma resolve_render (p : list string) : Forall plain p -> resolve (render p) = p.
Proof.
  intros H. destruct p as [|c p]; [reflexivity|].
  unfold resolve, render, split_slash.
  change (split_slash_go ("/" +:+ String.concat "/" (c :: p)) "")
    with ("" :: split_slash_go (String.concat "/" (c :: p)) "").
  rewrite (split_concat (c :: p) H) by discriminate.
  change (fold_left resolve_step ("" :: c :: p) [])
    with (fold_left resolve_step (c :: p) []).
  apply (fold_plain (c :: p) []). exact H.
Qed.

Lemma resolve_Clean (name : string) : resolve (filepath_Clean name) = resolve name.
Proof. unfold filepath_Clean. apply resolve_render, resolve_plain. Qed.

(** [filepath.Join] resolves to the directory, followed from there
    along the components of the element. *)
Lemma resolve_Join (a b : string) :
  resolve (filepath_Join a b) = fold_left resolve_step (split_slash b) (resolve a).
Proof.
  unfold filepath_Join.
  destruct (String.eqb_spec b "") as [->|Hb]; [rewrite resolve_Clean; reflexivity|].
  destruct (String.eqb_spec a "") as [->|Ha]; [rewrite resolve_Clean; reflexivity|].
  rewrite resolve_Clean. unfold resolve, split_slash.
  change (a +:+ "/" +:+ b) with (a +:+ String "/" b).
  rewrite split_app_slash, fold_left_app. reflexivity.
Qed.

Lemma resolve_Join_plain (a c : string) :
  plain c -> resolve (filepath_Join a c) = resolve a ++ [c].
Proof.
  intros Hc. rewrite resolve_Join. unfold split_slash.
  rewrite split_no_slash by apply Hc. simpl. apply resolve_step_plain. exact Hc.
Qed.

Lemma strip_trailing_empty_last (l : list string) :
  Forall (fun c => has_slash c = false) l ->
  strip_trailing_empty l = [] \/
  (has_slash (List.last (strip_trailing_empty l) "") = false /\
   List.last (strip_trailing_empty l) "" <> "").
Proof.
  induction 1 as [|c l Hc Hl IH]; [left; reflexivity|]. cbn [strip_trailing_empty].
  destruct (strip_trailing_empty l) as [|c2 r] eqn:Hr.
  - destruct (String.eqb_spec c "") as [->|Hne]; [left; reflexivity|].
    right. simpl. split; [exact Hc|exact Hne].
  - right. destruct IH as [IH|IH]; [discriminate|]. exact IH.
Qed.

Lemma Base_name (name : string) : name <> "" -> base_name (filepath_Base name).
Proof.
  intros Hne. unfold filepath_Base.
  destruct (String.eqb_spec name "") as [|_]; [contradiction|].
  destruct (strip_trailing_empty_last (split_slash name)) as [Hnil|[Hs Hl]].
  { apply split_components. reflexivity. }
  - rewrite Hnil. left. reflexivity.
  - destruct (strip_trailing_empty (split_slash name)); [left; reflexivity|].
    right. split; assumption.
Qed.

Lemma append_at_files (k : string) (fh : FileHeader) (m : gmap string (list FileHeader)) :
  base_name (Filename fh) ->
  (forall k l, m !! k = Some l -> Forall (fun fh => base_name (Filename fh)) l) ->
  forall k' l, append_at k fh m !! k' = Some l ->
               Forall (fun fh => base_name (Filename fh)) l.
Proof.
  intros Hfh Hm k' l. unfold append_at.
  destruct (decide (k = k')) as [->|Hne].
  - rewrite lookup_insert_eq. intros H. injection H as <-.
    apply Forall_app. split; [|constructor; [exact Hfh|constructor]].
    destruct (m !! k') as [l0|] eqn:Hl; simpl; [eapply Hm; exact Hl|constructor].
  - rewrite lookup_insert_ne by exact Hne. apply Hm.
Qed.

Lemma readForm_named_files (spill : option string) (parts : list Part) :
  forall (a b : Z) (form f : Form),
    named_files form ->
    readForm spill parts a b form = Ok f ->
    named_files f.
Proof.
  induction parts as [|p parts IH]; intros a b form f Hform Hrun; simpl in Hrun.
  - injection Hrun as <-. exact Hform.
  - destruct (String.eqb (part_name p) ""); [eapply IH; eassumption|].
    destruct (String.eqb_spec (Part_FileName p) "") as [Hf|Hf].
    { destruct (a <? _)%Z; [discriminate|]. eapply IH; [|exact Hrun]. exact Hform. }
    assert (base_name (Part_FileName p)) as Hbase.
    { unfold Part_FileName in *. destruct (String.eqb_spec (part_filename p) "") as [|Hne];
        [contradiction|]. apply Base_name. exact Hne. }
    destruct (b <? _)%Z.
    + destruct spill; [discriminate|]. eapply IH; [|exact Hrun].
      intros k l. cbn [File]. apply append_at_files; [exact Hbase|exact Hform].
    + eapply IH; [|exact Hrun].
      intros k l. cbn [File]. apply append_at_files; [exact Hbase|exact Hform].
Qed.

Lemma FormFile_base_name (spill openErr : option string) (r : Request) (maxMemory : Z)
    (pr : ParsedRequest) (key : string) (file : list byte) (header : FileHeader) :
  ParseMultipartForm spill r maxMemory = Ok pr ->
  FormFile openErr pr key = Ok (file, header) ->
  base_name (Filename header).
Proof.
  intros Hparse Hfile. unfold ParseMultipartForm in Hparse.
  destruct (Body r) as [|parts]; [discriminate|]. unfold multipart_ReadForm in Hparse.
  destruct (readForm _ _ _ _ _) as [f|] eqn:Hread; [|discriminate].
  apply readForm_named_files in Hread.
  2:{ intros k l. cbn [File]. rewrite lookup_empty. discriminate. }
  destruct (URLQueryErr r); [discriminate|]. injection Hparse as <-.
  unfold FormFile in Hfile. cbn [r_MultipartForm] in Hfile.
  destruct (File f !! key) as [[|fh l]|] eqn:Hl; try discriminate.
  apply Hread in Hl. inversion Hl as [|? ? Hfh _]; subst.
  destruct (fh_tmpfile fh); [destruct openErr; [discriminate|]|];
    injection Hfile as _ <-; exact Hfh.
Qed.

(** ** What the filesystem calls leave behind *)

Lemma removelast_shorter {A : Type} (p : list A) : p <> [] -> removelast p <> p.
Proof.
  intros Hne Heq. destruct (@exists_last A p Hne) as (q & x & ->).
  rewrite removelast_last in Heq.
  apply (f_equal (@length A)) in Heq. rewrite length_app in Heq. simpl in Heq. lia.
Qed.

Lemma MkdirTemp_created (env : Env) (dir pattern tempDir : string) (fs0 fs1 : FileSystem) :
  os_MkdirTemp env dir pattern fs0 = (Ok tempDir, fs1) ->
  resolve tempDir <> [] /\
  fs0 !! resolve tempDir = None /\
  fs1 = <[resolve tempDir := IsDir]> fs0 /\
  stat fs1 (removelast (resolve tempDir)) = Some IsDir.
Proof.
  unfold os_MkdirTemp. destruct (prefixAndSuffix pattern) as [prefix suffix].
  destruct (MkdirTempErr env); [discriminate|].
  destruct (os_Mkdir _ fs0) as [fs'|e] eqn:Hmk; [|discriminate].
  intros H. injection H as <- <-. unfold os_Mkdir in Hmk.
  set (name := joinPath _ _ +:+ _ +:+ _) in *. clearbody name.
  destruct (stat fs0 (removelast (resolve name))) as [[|]|] eqn:Hparent; try discriminate.
  destruct (stat fs0 (resolve name)) eqn:Hstat; [discriminate|].
  injection Hmk as <-.
  assert (resolve name <> []) as Hne.
  { intros Heq. rewrite Heq in Hstat. discriminate. }
  split; [exact Hne|]. split.
  { destruct (resolve name); [contradiction|exact Hstat]. }
  split; [reflexivity|].
  destruct (removelast (resolve name)) as [|c q] eqn:Hq; [reflexivity|].
  cbn [stat] in *. rewrite lookup_insert_ne; [exact Hparent|].
  rewrite <- Hq. intros Heq. symmetry in Heq. revert Heq.
  apply removelast_shorter. exact Hne.
Qed.

Lemma create_ok (env : Env) (name : string) (fs fs2 : FileSystem) :
  create env name fs = (Ok tt, fs2) ->
  fs2 = <[resolve name := IsFile []]> fs /\
  stat fs (resolve name) <> Some IsDir /\
  stat fs (removelast (resolve name)) = Some IsDir.
Proof.
  unfold create, os_Create. destruct (CreateErr env); [discriminate|].
  destruct (stat fs (removelast (resolve name))) as [[|]|]; try discriminate.
  destruct (stat fs (resolve name)) as [[|]|]; try discriminate;
    intros H; injection H as <-; repeat split; discriminate.
Qed.

Lemma create_err (env : Env) (name e : string) (fs fs2 : FileSystem) :
  create env name fs = (Err e, fs2) -> fs2 = fs.
Proof.
  unfold create. destruct (CreateErr env); [intros H; injection H as _ <-; reflexivity|].
  destruct (os_Create name fs); [discriminate|]. intros H; injection H as _ <-; reflexivity.
Qed.

(** The staged upload is created directly in the new directory, if at all. *)
Lemma staged_path (env : Env) (tempDir filename : string) (fs0 fs1 fs2 : FileSystem) :
  os_MkdirTemp env "" "lcp-encrypt-*" fs0 = (Ok tempDir, fs1) ->
  base_name filename ->
  create env (filepath_Join tempDir filename) fs1 = (Ok tt, fs2) ->
  exists c, plain c /\ resolve (filepath_Join tempDir filename) = resolve tempDir ++ [c].
Proof.
  intros Htemp Hbase Hcreate.
  apply MkdirTemp_created in Htemp. destruct Htemp as (Hne & _ & -> & Hparent).
  apply create_ok in Hcreate. destruct Hcreate as (_ & Hnodir & Hdir).
  assert (stat (<[resolve tempDir := IsDir]> fs0) (resolve tempDir) = Some IsDir) as Hself.
  { destruct (resolve tempDir); [contradiction|]. apply lookup_insert_eq. }
  pose proof (resolve_Join tempDir filename) as HJ.
  destruct Hbase as [->|[Hslash Hnonempty]].
  - exfalso. apply Hnodir. rewrite HJ. exact Hself.
  - unfold split_slash in HJ. rewrite split_no_slash in HJ by exact Hslash.
    change (fold_left resolve_step ["" +:+ filename] (resolve tempDir))
      with (resolve_step (resolve tempDir) filename) in HJ.
    destruct (resolve_step_cases (resolve tempDir) filename Hslash)
      as [[Hp Heq]|[[_ Heq]|[_ Heq]]]; rewrite Heq in HJ.
    + exists filename. split; [exact Hp|exact HJ].
    + exfalso. apply Hnodir. rewrite HJ. exact Hparent.
    + exfalso. apply Hnodir. rewrite HJ. exact Hself.
Qed.

(** ** The staged upload and the rest of the filesystem *)

Lemma copy_to_file_at (env : Env) (name : string) (content : list byte)
    (fs fs3 : FileSystem) (res : Result unit) :
  copy_to_file env name content fs = (res, fs3) ->
  exists written, fs3 = <[resolve name := IsFile written]> fs /\ written `prefix_of` content.
Proof.
  unfold copy_to_file. destruct (CopyErr env) as [[n e]|]; intros H; injection H as _ <-.
  - exists (take n content). split; [reflexivity|apply prefix_take].
  - exists content. split; reflexivity.
Qed.

Lemma mkdir_all_keeps (name : string) (rest base : list string) (fs fs' : FileSystem) :
  mkdir_all_from name base rest fs = Ok fs' ->
  forall p n, fs !! p = Some n -> fs' !! p = Some n.
Proof.
  revert base fs. induction rest as [|c rest IH]; intros base fs H p n Hp; simpl in H.
  - injection H as <-. exact Hp.
  - destruct (stat fs (base ++ [c])) as [[|]|] eqn:Hstat; try discriminate.
    + eapply IH; eassumption.
    + eapply IH; [exact H|]. rewrite lookup_insert_ne; [exact Hp|].
      intros <-. destruct (base ++ [c]) eqn:Hb; [discriminate|].
      cbn [stat] in Hstat. congruence.
Qed.

Lemma mkdirAll_keeps (env : Env) (name : string) (fs fs4 : FileSystem) (res : Result unit) :
  mkdirAll env name fs = (res, fs4) ->
  forall p n, fs !! p = Some n -> fs4 !! p = Some n.
Proof.
  unfold mkdirAll, os_MkdirAll. destruct (MkdirAllErr env).
  { intros H; injection H as _ <-. auto. }
  destruct (mkdir_all_from _ _ _ _) eqn:Hmk; intros H; injection H as _ <-; [|auto].
  eapply mkdir_all_keeps. exact Hmk.
Qed.

Lemma MkdirTemp_err (env : Env) (dir pattern e : string) (fs0 fs1 : FileSystem) :
  os_MkdirTemp env dir pattern fs0 = (Err e, fs1) -> fs1 = fs0.
Proof.
  unfold os_MkdirTemp. destruct (prefixAndSuffix pattern) as [prefix suffix].
  destruct (MkdirTempErr env); [intros H; injection H as _ <-; reflexivity|].
  destruct (os_Mkdir _ fs0); [discriminate|]. intros H; injection H as _ <-; reflexivity.
Qed.

Lemma open_same (env : Env) (name : string) (fs fs6 : FileSystem) (res : Result Node) :
  open env name fs = (res, fs6) -> fs6 = fs.
Proof. unfold open. destruct (OpenErr env); intros H; injection H as _ <-; reflexivity. Qed.

Lemma not_prefix_snoc (p q : list string) (c : string) :
  ¬ p `prefix_of` q -> ¬ (p ++ [c]) `prefix_of` q.
Proof. intros H Hp. apply H. eapply prefix_app_l. exact Hp. Qed.

Lemma not_prefix_ne (p q : list string) : ¬ p `prefix_of` q -> q <> p.
Proof. intros H ->. apply H. reflexivity. Qed.

Section WorkspaceRuns.
  Variables (env : Env) (E : encrypt.Engine) (M : GoValue -> Result string).
  Variables (r : Request) (fs0 : FileSystem).
  Local Abbreviation final := (EncryptEPUB env E M r (serving fs0)).

(** X10. Whatever filename the client sends, the staged upload is
    created directly in the temporary directory, under a plain name, or
    is not created at all. *)
Theorem staged_upload_stays_in_workspace (tempDir name : string) :
  EvMkdirTemp "lcp-encrypt-*" (Ok tempDir) ∈ trace final ->
  EvCreate name (Ok tt) ∈ trace final ->
  exists c, plain c /\ resolve name = resolve tempDir ++ [c].
Proof.
  go_run; intros Htd Hin; in_trace Hin; in_trace Htd.
  all: match goal with H : EvMkdirTemp _ _ = EvMkdirTemp _ _ |- _ => injection H as <- end.
  all: match goal with H : EvCreate _ _ = EvCreate _ _ |- _ => injection H as <- end.
  all: eapply staged_path; [exact Htemp| |exact Hcreate].
  all: eapply FormFile_base_name; eassumption.
Qed.

(** X11. With an engine that leaves what exists outside its output
    directory alone, every file and directory that existed before the
    request, outside the temporary directory, is still there, unchanged,
    when the handler returns. *)
Theorem files_outside_workspace_kept (p : list string) (n : Node) :
  engine_confined E ->
  fs0 !! p = Some n ->
  (forall tempDir, EvMkdirTemp "lcp-encrypt-*" (Ok tempDir) ∈ trace final ->
                   ¬ resolve tempDir `prefix_of` p) ->
  fs final !! p = Some n.
Proof.
  intros Hconf Hp0.
  pose proof (spill_to_disk_keeps env r (Z.shiftl 50 20) fs0 p n Hp0) as Hp.
  go_run; intros Hout; try exact Hp.
  all: try (apply MkdirTemp_err in Htemp; subst fs1; exact Hp).
  all: assert (¬ resolve tempDir `prefix_of` p) as Hnot by (apply Hout; traced).
  all: rewrite RemoveAll_elsewhere by exact Hnot.
  all: pose proof (FormFile_base_name _ _ _ _ _ _ _ _ Hparse Hfile) as Hbase.
  all: pose proof (MkdirTemp_created _ _ _ _ _ _ Htemp) as (_ & _ & Hfs1 & _).
  all: assert (fs1 !! p = Some n) as H1
         by (rewrite Hfs1, lookup_insert_ne; [exact Hp|apply not_eq_sym, not_prefix_ne, Hnot]).
  all: try (apply create_err in Hcreate; subst fs2; exact H1).
  all: destruct (staged_path _ _ _ _ _ _ Htemp Hbase Hcreate) as (c & Hc & Hname).
  all: apply create_ok in Hcreate; destruct Hcreate as (Hfs2 & _ & _).
  all: assert (fs2 !! p = Some n) as H2
         by (rewrite Hfs2, Hname, lookup_insert_ne;
             [exact H1|apply not_eq_sym, not_prefix_ne, not_prefix_snoc, Hnot]).
  all: apply copy_to_file_at in Hcopy; destruct Hcopy as (written & Hfs3 & _).
  all: assert (fs3 !! p = Some n) as H3
         by (rewrite Hfs3, Hname, lookup_insert_ne;
             [exact H2|apply not_eq_sym, not_prefix_ne, not_prefix_snoc, Hnot]).
  all: try exact H3.
  all: pose proof (mkdirAll_keeps _ _ _ _ _ Hmkdir p n H3) as H4.
  all: try exact H4.
  all: assert (fs5 !! p = Some n) as H5
         by (eapply (Hconf _ _ _ _ Hengine); [|exact H4];
             cbn [encrypt.outputRepo];
             rewrite (resolve_Join_plain tempDir "output")
               by (repeat split; discriminate);
             apply not_prefix_snoc, Hnot).
  all: try exact H5.
  all: apply open_same in Hopen; subst fs6; exact H5.
Qed.
End WorkspaceRuns.

(** ** [saveMultipartFile] *)

Ltac save_red :=
  cbv beta iota zeta delta
    [call saveMultipartFile bind orelse syscall ret return_ defer
     set_fs set_resp add_log add_event set_defers
     fs resp logs trace defers snd fst run_defers run_deferred fold_left].

Section Save.
  Variables (env : Env) (dst : string) (w : World).

(** X1. When [saveMultipartFile] returns no error, opening the
    destination gives back exactly the bytes of the source, and the
    call created, wrote and closed the file, in that order. *)
Theorem saveMultipartFile_round_trip (content : list byte) :
  fst (call (saveMultipartFile env (Some content) dst) w) = Ok tt ->
  let w' := snd (call (saveMultipartFile env (Some content) dst) w) in
  os_Open dst (fs w') = Ok (IsFile content) /\
  trace w' = trace w ++ [EvCreate dst (Ok tt); EvCopy dst (Ok tt); EvClose dst].
Proof.
  destruct w as [f rw lg tr df]. save_red.
  destruct (create env dst f) as [[[]|e] f2] eqn:Hcreate; save_red; [|discriminate].
  destruct (copy_to_file env dst content f2) as [[[]|e] f3] eqn:Hcopy; save_red;
    [|discriminate].
  intros _. split.
  - apply create_ok in Hcreate. destruct Hcreate as (_ & Hnodir & _).
    unfold copy_to_file in Hcopy. destruct (CopyErr env) as [[k e]|]; [discriminate|].
    injection Hcopy as <-. unfold os_Open.
    destruct (resolve dst) as [|c p] eqn:Hp; [exfalso; apply Hnodir; reflexivity|].
    cbn [stat]. rewrite lookup_insert_eq. reflexivity.
  - rewrite <- !app_assoc. reflexivity.
Qed.

(** X2. Whatever its outcome, [saveMultipartFile] changes no path of
    the filesystem but the destination, and neither the response, the
    log nor the deferred calls of its caller. *)
Theorem saveMultipartFile_touches_only_dst (src : option (list byte)) (p : list string) :
  p <> resolve dst ->
  let w' := snd (call (saveMultipartFile env src dst) w) in
  fs w' !! p = fs w !! p /\ resp w' = resp w /\ logs w' = logs w /\ defers w' = defers w.
Proof.
  intros Hp. destruct w as [f rw lg tr df]. destruct src as [content|]; save_red.
  2:{ repeat split. }
  destruct (create env dst f) as [[[]|e] f2] eqn:Hcreate; save_red.
  2:{ apply create_err in Hcreate. subst f2. repeat split. }
  destruct (copy_to_file env dst content f2) as [res f3] eqn:Hcopy; save_red.
  apply create_ok in Hcreate. destruct Hcreate as (-> & _ & _).
  apply copy_to_file_at in Hcopy. destruct Hcopy as (written & -> & _).
  repeat split. rewrite !lookup_insert_ne by (apply not_eq_sym; exact Hp). reflexivity.
Qed.

(** X3. When [saveMultipartFile] returns an error, either the source
    was nil and nothing happened, or the file could not be created and
    the filesystem is as before, or the copy failed: then the
    destination holds a prefix of the source and has still been closed. *)
Theorem saveMultipartFile_failure (src : option (list byte)) (e : string) :
  fst (call (saveMultipartFile env src dst) w) = Err e ->
  let w' := snd (call (saveMultipartFile env src dst) w) in
  (src = None /\ e = "source is nil" /\ w' = w) \/
  (fs w' = fs w /\ trace w' = trace w ++ [EvCreate dst (Err e)]) \/
  (exists content written,
     src = Some content /\ written `prefix_of` content /\
     os_Open dst (fs w') = Ok (IsFile written) /\
     trace w' = trace w ++ [EvCreate dst (Ok tt); EvCopy dst (Err e); EvClose dst]).
Proof.
  destruct w as [f rw lg tr df]. destruct src as [content|]; save_red.
  2:{ intros H. injection H as <-. left. repeat split. }
  destruct (create env dst f) as [[[]|e'] f2] eqn:Hcreate; save_red.
  2:{ intros H. injection H as <-. right. left. apply create_err in Hcreate. subst f2.
      split; reflexivity. }
  destruct (copy_to_file env dst content f2) as [[[]|e'] f3] eqn:Hcopy; save_red;
    [discriminate|].
  intros H. injection H as <-. right. right.
  apply create_ok in Hcreate. destruct Hcreate as (_ & Hnodir & _).
  apply copy_to_file_at in Hcopy. destruct Hcopy as (written & -> & Hpre).
  exists content, written. split; [reflexivity|]. split; [exact Hpre|]. split.
  - unfold os_Open.
    destruct (resolve dst) as [|c p] eqn:Hp; [exfalso; apply Hnodir; reflexivity|].
    cbn [stat]. rewrite lookup_insert_eq. reflexivity.
  - rewrite <- !app_assoc. reflexivity.
Qed.
End Save.

(** ** Replies, log lines and deferred calls *)

Lemma Join_not_bare (a b : string) (what : string) :
  what = "file" \/ what = "encryptedFile" -> filepath_Join a b <> what.
Proof.
  intros Hw Heq. unfold filepath_Join, filepath_Clean, render in Heq.
  destruct (String.eqb b ""), (String.eqb a ""), Hw; subst what; discriminate Heq.
Qed.

Section ReplyRuns.
  Variables (env : Env) (E : encrypt.Engine) (M : GoValue -> Result string).
  Variables (r : Request) (fs0 : FileSystem).
  Local Abbreviation final := (EncryptEPUB env E M r (serving fs0)).

(** X4. Every request is answered with exactly one status line, and
    the status is 200, 400 or 500. *)
Theorem answered_exactly_once :
  exists code h data,
    Wire (resp final) = WHeader code h :: data /\
    (code = 200 \/ code = 400 \/ code = 500)%Z /\
    Forall (fun i => is_WHeader i = false) data.
Proof.
  go_run; resp_red; do 3 eexists; (split; [reflexivity|]);
    (split; [auto|repeat constructor]).
Qed.

(** X5. Every request logs two lines: that it was received, then its
    outcome, which is at the info level exactly when the request
    completed and at the error level otherwise. *)
Theorem two_log_lines :
  exists level text,
    logs final = [(InfoLevel, "EncryptEPUB: request received"); (level, text)] /\
    (level = InfoLevel <-> completed final).
Proof.
  go_run; do 2 eexists; (split; [reflexivity|]); split;
    try discriminate; try (intros _; reflexivity); try (intros _; traced);
    intros H; in_trace H.
Qed.

(** X6. When streaming the body fails, the status 200 and the metadata
    header have already gone out; the body sent is a prefix of the
    artifact (nothing, if the descriptor names a directory), and the log
    ends with the streaming error instead of the success line. *)
Theorem stream_failure_after_headers (e : string) :
  EvStream (Err e) ∈ trace final ->
  response_status (resp final) = Some 200%Z /\
  (exists json, response_header (resp final) !! "X-Encrypt-Metadata" = Some json) /\
  (exists name node,
     EvOpen name (Ok node) ∈ trace final /\
     match node with
     | IsFile artifact => response_body (resp final) `prefix_of` artifact
     | IsDir => response_body (resp final) = []
     end) /\
  logs final = [ (InfoLevel, "EncryptEPUB: request received");
                 (ErrorLevel, "EncryptEPUB: failed to stream encrypted file: " +:+ e) ].
Proof.
  go_run; intros Hin; in_trace Hin;
    match goal with H : EvStream _ = EvStream _ |- _ => injection H as <- end.
  all: split; [reflexivity|].
  all: split; [eexists; resp_red; reflexivity|].
  all: split; [|reflexivity].
  all: do 2 eexists; split; [traced|]; resp_red; rewrite ?app_nil_r;
         try reflexivity; apply prefix_take.
Qed.

(** X7. A request answered with 400 has started no work: no temporary
    directory, no engine call, nothing removed.  The filesystem is as it
    was, or holds one more file, under a name that was free: the one in
    which the parser stored the file parts too large for memory. *)
Theorem client_errors_start_no_work :
  response_status (resp final) = Some 400%Z ->
  (fs final = fs0 \/
   exists name content,
     fs0 !! resolve name = None /\ fs final = <[resolve name := IsFile content]> fs0) /\
  engine_calls (trace final) = [] /\
  removals (trace final) = [] /\
  (forall pattern res, EvMkdirTemp pattern res ∉ trace final).
Proof.
  go_run; resp_red; intros Hst; try discriminate Hst.
  all: split; [apply spill_to_disk_cases|].
  all: repeat split; intros pattern res Hin; in_trace Hin.
Qed.

(** X8. Once the encrypted file is open, the deferred calls end the
    run latest first: the encrypted file is closed, then the temporary
    directory is removed, then the upload is closed; neither file is
    closed before that. *)
Theorem deferred_calls_run_latest_first (name : string) (node : Node) :
  EvOpen name (Ok node) ∈ trace final ->
  exists before tempDir,
    trace final = before ++ [EvClose "encryptedFile"; EvRemoveAll tempDir; EvClose "file"] /\
    EvMkdirTemp "lcp-encrypt-*" (Ok tempDir) ∈ before /\
    (EvClose "encryptedFile" ∉ before) /\ (EvClose "file" ∉ before).
Proof.
  go_run; intros Hin; in_trace Hin.
  all: match goal with |- exists b t, ?l = _ /\ _ => exists (take (length l - 3) l) end.
  all: eexists; split; [reflexivity|]; cbn [length Nat.sub take].
  all: split; [traced|].
  all: split; intros Hc; in_trace Hc.
  all: match goal with H : EvClose _ = EvClose _ |- _ =>
         injection H as H'; revert H'; apply Join_not_bare; auto end.
Qed.

(** X9. Whenever [FormFile] returned the upload, the upload is closed
    exactly once, as the last action of the handler. *)
Theorem upload_closed_once (fh : list byte * FileHeader) :
  EvFormFile "file" (Ok fh) ∈ trace final ->
  exists before, trace final = before ++ [EvClose "file"] /\ (EvClose "file" ∉ before).
Proof.
  go_run; intros Hin; in_trace Hin.
  all: match goal with |- exists b, ?l = _ /\ _ => exists (take (length l - 1) l) end.
  all: split; [reflexivity|]; cbn [length Nat.sub take].
  all: intros Hc; in_trace Hc.
  all: match goal with H : EvClose _ = EvClose _ |- _ =>
         injection H as H'; first [discriminate H' | revert H'; apply Join_not_bare; auto] end.
Qed.

(** X12. A non-empty title in the URL query is the title of the
    metadata, whatever the form and the descriptor say: [FormValue]
    reads the query first. *)
Theorem query_title_wins (v : string) (rest : list string) :
  URLQuery r !! "title" = Some (v :: rest) ->
  v <> "" ->
  completed final ->
  exists m json,
    EvMarshal (EncryptResponse_value m) (Ok json) ∈ trace final /\
    response_header (resp final) !! "X-Encrypt-Metadata" = Some json /\
    Title m = v.
Proof.
  intros Hq Hv. go_run; intros Hin; in_trace Hin.
  do 2 eexists. split; [traced|]. split; [resp_red; reflexivity|].
  cbn [Title].
  assert (FormValue pr "title" = v) as ->.
  { unfold ParseMultipartForm in Hparse. destruct (Body r); [discriminate|].
    destruct (multipart_ReadForm _ _ _) as [f|]; [|discriminate].
    destruct (URLQueryErr r); [discriminate|]. injection Hparse as <-.
    unfold FormValue. cbn [r_Form]. rewrite lookup_union_with, Hq.
    destruct (Value f !! "title"); reflexivity. }
  destruct (String.eqb_spec v ""); [contradiction|]. reflexivity.
Qed.
End ReplyRuns.

(** ** What the memory limit refuses *)

Lemma value_bytes_nonneg (parts : list Part) : (0 <= value_bytes parts)%Z.
Proof.
  induction parts as [|p parts IH]; simpl; [lia|]. destruct (is_value p); lia.
Qed.

Lemma readForm_value_budget (spill : option string) (parts : list Part) :
  forall (a b : Z) (form f : Form),
    readForm spill parts a b form = Ok f ->
    (value_bytes parts <= Z.max a 0)%Z.
Proof.
  induction parts as [|p parts IH]; intros a b form f Hrun; simpl in Hrun.
  { simpl. lia. }
  cbn [value_bytes fold_right]. fold (value_bytes parts). unfold is_value.
  destruct (String.eqb (part_name p) ""); cbn [negb andb].
  { eapply IH; exact Hrun. }
  destruct (String.eqb (Part_FileName p) "").
  - destruct (a <? _)%Z eqn:Hlt; [discriminate|]. apply Z.ltb_ge in Hlt.
    apply IH in Hrun. lia.
  - destruct (b <? _)%Z.
    + destruct spill; [discriminate|]. eapply IH; exact Hrun.
    + apply IH in Hrun. lia.
Qed.

Section LimitRuns.
  Variables (env : Env) (E : encrypt.Engine) (M : GoValue -> Result string).
  Variables (r : Request) (fs0 : FileSystem).
  Local Abbreviation final := (EncryptEPUB env E M r (serving fs0)).

(** X14. What the 50 MiB argument does refuse: form values (parts
    without a filename) of more than 50 MiB plus 10 MiB in total.  The
    request is answered 400 after the parse alone. *)
Theorem oversized_values_rejected (parts : list Part) :
  Body r = Multipart parts ->
  (value_bytes parts > Z.shiftl 50 20 + Z.shiftl 10 20)%Z ->
  plain_reply 400 "failed to parse multipart form" (resp final) /\
  fs final = fs0 /\
  exists e, trace final = [EvParseMultipartForm (Z.shiftl 50 20) (Err e)].
Proof.
  intros Hbody Hbig.
  assert (exists e, multipart_ReadForm (spill_error env fs0) parts (Z.shiftl 50 20) = Err e)
    as [e Hread].
  { unfold multipart_ReadForm.
    destruct (readForm _ _ _ _ _) as [f|e] eqn:Hread; [exfalso|exists e; reflexivity].
    apply readForm_value_budget in Hread.
    change (Z.shiftl 50 20) with 52428800%Z in *.
    change (Z.shiftl 10 20) with 10485760%Z in *.
    lia. }
  go_red. rewrite (spill_to_disk_failed env r parts _ fs0 e Hbody Hread).
  unfold ParseMultipartForm. rewrite Hbody, Hread. go_red.
  split; [|split; [reflexivity|eexists; reflexivity]].
  split; [reflexivity|]. split; [reflexivity|].
  resp_red. rewrite app_nil_r. reflexivity.
Qed.
End LimitRuns.

Lemma tidy_engine_confined : engine_confined tidy_engine.
Proof.
  intros args fs res fs' H p n Hout Hp. unfold tidy_engine in H.
  destruct (os_Create _ fs) as [fs1|e] eqn:Hc; injection H as _ <-; [|exact Hp].
  assert (resolve (filepath_Join (encrypt.outputRepo args) "book.epub")
          = resolve (encrypt.outputRepo args) ++ ["book.epub"]) as Hname.
  { apply resolve_Join_plain. repeat split; discriminate. }
  assert (p <> resolve (encrypt.outputRepo args) ++ ["book.epub"]) as Hne.
  { apply not_prefix_ne, not_prefix_snoc, Hout. }
  unfold os_Create in Hc. rewrite Hname in *.
  destruct (stat fs (removelast _)) as [[|]|]; try discriminate.
  destruct (stat fs _) as [[|]|]; try discriminate; injection Hc as <-;
    rewrite !lookup_insert_ne by (apply not_eq_sym; exact Hne); exact Hp.
Qed.

(** ** The further properties on the test bench *)

Ltac absent H :=
  apply list_elem_of_In in H; vm_compute in H;
  repeat match type of H with
         | _ \/ _ => destruct H as [H|H]; [try discriminate H|]
         end;
  try (exfalso; exact H).

Lemma round_trip_witness :
  fst (call (saveMultipartFile calm (Some book) "/tmp/a.bin") (serving disk)) = Ok tt /\
  let w' := snd (call (saveMultipartFile calm (Some book) "/tmp/a.bin") (serving disk)) in
  os_Open "/tmp/a.bin" (fs w') = Ok (IsFile book) /\
  trace w' = trace (serving disk)
             ++ [EvCreate "/tmp/a.bin" (Ok tt); EvCopy "/tmp/a.bin" (Ok tt);
                 EvClose "/tmp/a.bin"].
Proof.
  assert (fst (call (saveMultipartFile calm (Some book) "/tmp/a.bin") (serving disk)) = Ok tt)
    as H by (vm_compute; reflexivity).
  split; [exact H|].
  exact (saveMultipartFile_round_trip calm "/tmp/a.bin" (serving disk) book H).
Defined.

Lemma touches_only_dst_witness :
  ["tmp"] <> resolve "/tmp/a.bin" /\
  let w' := snd (call (saveMultipartFile calm (Some book) "/tmp/a.bin") (serving disk)) in
  fs w' !! ["tmp"] = fs (serving disk) !! ["tmp"] /\ resp w' = resp (serving disk) /\
  logs w' = logs (serving disk) /\ defers w' = defers (serving disk).
Proof.
  assert (["tmp"] <> resolve "/tmp/a.bin") as H by (vm_compute; discriminate).
  split; [exact H|].
  exact (saveMultipartFile_touches_only_dst calm "/tmp/a.bin" (serving disk)
           (Some book) ["tmp"] H).
Defined.

Lemma save_failure_witness :
  fst (call (saveMultipartFile disk_full (Some book) "/tmp/a.bin") (serving disk))
    = Err "write: no space left on device" /\
  let w' := snd (call (saveMultipartFile disk_full (Some book) "/tmp/a.bin") (serving disk)) in
  (Some book = None /\ "write: no space left on device" = "source is nil" /\ w' = serving disk) \/
  (fs w' = fs (serving disk) /\
   trace w' = trace (serving disk)
              ++ [EvCreate "/tmp/a.bin" (Err "write: no space left on device")]) \/
  (exists content written,
     Some book = Some content /\ written `prefix_of` content /\
     os_Open "/tmp/a.bin" (fs w') = Ok (IsFile written) /\
     trace w' = trace (serving disk)
                ++ [EvCreate "/tmp/a.bin" (Ok tt);
                    EvCopy "/tmp/a.bin" (Err "write: no space left on device");
                    EvClose "/tmp/a.bin"]).
Proof.
  assert (fst (call (saveMultipartFile disk_full (Some book) "/tmp/a.bin") (serving disk))
          = Err "write: no space left on device") as H by (vm_compute; reflexivity).
  split; [exact H|].
  exact (saveMultipartFile_failure disk_full "/tmp/a.bin" (serving disk) (Some book)
           "write: no space left on device" H).
Defined.

Lemma stream_failure_witness :
  EvStream (Err "write: broken pipe") ∈ trace bench_hangup_run /\
  (response_status (resp bench_hangup_run) = Some 200%Z /\
   (exists json, response_header (resp bench_hangup_run) !! "X-Encrypt-Metadata" = Some json) /\
   (exists name node,
      EvOpen name (Ok node) ∈ trace bench_hangup_run /\
      match node with
      | IsFile artifact => response_body (resp bench_hangup_run) `prefix_of` artifact
      | IsDir => response_body (resp bench_hangup_run) = []
      end) /\
   logs bench_hangup_run =
     [ (InfoLevel, "EncryptEPUB: request received");
       (ErrorLevel, "EncryptEPUB: failed to stream encrypted file: " +:+ "write: broken pipe") ]).
Proof.
  assert (EvStream (Err "write: broken pipe") ∈ trace bench_hangup_run) as H by evaluated.
  split; [exact H|].
  exact (stream_failure_after_headers hangup stub_engine (json_Marshal stub_quote)
           titled_upload disk "write: broken pipe" H).
Defined.

Lemma client_error_witness :
  response_status (resp bench_no_upload) = Some 400%Z /\
  ((fs bench_no_upload = disk \/
    exists name content,
      disk !! resolve name = None /\
      fs bench_no_upload = <[resolve name := IsFile content]> disk) /\
   engine_calls (trace bench_no_upload) = [] /\
   removals (trace bench_no_upload) = [] /\
   (forall pattern res, EvMkdirTemp pattern res ∉ trace bench_no_upload)).
Proof.
  assert (response_status (resp bench_no_upload) = Some 400%Z) as H
    by (vm_compute; reflexivity).
  split; [exact H|].
  exact (client_errors_start_no_work calm stub_engine (json_Marshal stub_quote)
           no_upload disk H).
Defined.

Lemma deferred_order_witness :
  EvOpen "/tmp/lcp-encrypt-42/output/00000000-0000-4000-8000-000000000000.epub"
         (Ok (IsFile (rev book))) ∈ trace bench_run /\
  exists before tempDir,
    trace bench_run
      = before ++ [EvClose "encryptedFile"; EvRemoveAll tempDir; EvClose "file"] /\
    EvMkdirTemp "lcp-encrypt-*" (Ok tempDir) ∈ before /\
    (EvClose "encryptedFile" ∉ before) /\ (EvClose "file" ∉ before).
Proof.
  assert (EvOpen "/tmp/lcp-encrypt-42/output/00000000-0000-4000-8000-000000000000.epub"
            (Ok (IsFile (rev book))) ∈ trace bench_run) as H by evaluated.
  split; [exact H|].
  exact (deferred_calls_run_latest_first calm stub_engine (json_Marshal stub_quote)
           titled_upload disk _ _ H).
Defined.

Lemma upload_closed_witness :
  EvFormFile "file"
    (Ok (book, {| Filename := "book.epub"; fh_Size := 5; fh_content := book;
                  fh_tmpfile := false |})) ∈ trace bench_refused /\
  exists before,
    trace bench_refused = before ++ [EvClose "file"] /\ (EvClose "file" ∉ before).
Proof.
  assert (EvFormFile "file"
            (Ok (book, {| Filename := "book.epub"; fh_Size := 5; fh_content := book;
                          fh_tmpfile := false |})) ∈ trace bench_refused) as H by evaluated.
  split; [exact H|].
  exact (upload_closed_once calm failing_engine (json_Marshal stub_quote)
           titled_upload disk _ H).
Defined.

Lemma staged_upload_witness :
  (EvMkdirTemp "lcp-encrypt-*" (Ok "/tmp/lcp-encrypt-42") ∈ trace bench_traversal /\
   EvCreate "/tmp/lcp-encrypt-42/passwd" (Ok tt) ∈ trace bench_traversal) /\
  exists c, plain c /\
            resolve "/tmp/lcp-encrypt-42/passwd" = resolve "/tmp/lcp-encrypt-42" ++ [c].
Proof.
  assert (EvMkdirTemp "lcp-encrypt-*" (Ok "/tmp/lcp-encrypt-42") ∈ trace bench_traversal)
    as H1 by evaluated.
  assert (EvCreate "/tmp/lcp-encrypt-42/passwd" (Ok tt) ∈ trace bench_traversal)
    as H2 by evaluated.
  split; [split; [exact H1|exact H2]|].
  exact (staged_upload_stays_in_workspace calm stub_engine (json_Marshal stub_quote)
           traversal_upload disk _ _ H1 H2).
Defined.

Lemma files_kept_witness :
  (engine_confined tidy_engine /\
   disk !! ["tmp"] = Some IsDir /\
   (forall tempDir, EvMkdirTemp "lcp-encrypt-*" (Ok tempDir) ∈ trace bench_tidy ->
                    ¬ resolve tempDir `prefix_of` ["tmp"])) /\
  fs bench_tidy !! ["tmp"] = Some IsDir.
Proof.
  assert (disk !! ["tmp"] = Some IsDir) as H1 by (vm_compute; reflexivity).
  assert (forall tempDir, EvMkdirTemp "lcp-encrypt-*" (Ok tempDir) ∈ trace bench_tidy ->
                          ¬ resolve tempDir `prefix_of` ["tmp"]) as H2.
  { intros tempDir H. absent H. injection H as <-.
    intros [k Hk]. vm_compute in Hk. discriminate Hk. }
  split; [split; [exact tidy_engine_confined|split; [exact H1|exact H2]]|].
  exact (files_outside_workspace_kept calm tidy_engine (json_Marshal stub_quote)
           titled_upload disk ["tmp"] IsDir tidy_engine_confined H1 H2).
Defined.

Lemma query_title_witness :
  (URLQuery query_titled !! "title" = Some ["From Query"] /\
   "From Query" <> "" /\ completed bench_query) /\
  exists m json,
    EvMarshal (EncryptResponse_value m) (Ok json) ∈ trace bench_query /\
    response_header (resp bench_query) !! "X-Encrypt-Metadata" = Some json /\
    Title m = "From Query".
Proof.
  assert (URLQuery query_titled !! "title" = Some ["From Query"]) as H1
    by (vm_compute; reflexivity).
  assert ("From Query" <> "") as H2 by discriminate.
  assert (completed bench_query) as H3 by (unfold completed; evaluated).
  split; [split; [exact H1|split; [exact H2|exact H3]]|].
  exact (query_title_wins calm stub_engine (json_Marshal stub_quote) query_titled disk
           "From Query" [] H1 H2 H3).
Defined.

Lemma engine_not_invoked_witness :
  (forall outputDir, EvMkdirAll outputDir (Ok tt) ∉ trace bench_no_upload) /\
  engine_calls (trace bench_no_upload) = [].
Proof.
  assert (forall outputDir, EvMkdirAll outputDir (Ok tt) ∉ trace bench_no_upload) as H.
  { intros outputDir H. absent H. }
  split; [exact H|].
  exact (engine_not_invoked_earlier calm stub_engine (json_Marshal stub_quote)
           no_upload disk H).
Defined.

Lemma value_bytes_long_note :
  (value_bytes [long_note] > Z.shiftl 50 20 + Z.shiftl 10 20)%Z.
Proof.
  unfold value_bytes, fold_right, long_note.
  change (is_value _) with true. cbn [part_content].
  rewrite length_replicate, N_nat_Z. reflexivity.
Qed.

Lemma oversized_values_witness :
  (Body (post [long_note]) = Multipart [long_note] /\
   (value_bytes [long_note] > Z.shiftl 50 20 + Z.shiftl 10 20)%Z) /\
  (plain_reply 400 "failed to parse multipart form" (resp bench_long_note) /\
   fs bench_long_note = disk /\
   exists e, trace bench_long_note = [EvParseMultipartForm (Z.shiftl 50 20) (Err e)]).
Proof.
  split; [split; [reflexivity|exact value_bytes_long_note]|].
  exact (oversized_values_rejected calm stub_engine (json_Marshal stub_quote)
           (post [long_note]) disk [long_note] eq_refl value_bytes_long_note).
Defined.

(** ** The order of staging and encryption *)

Section OrderRuns.
  Variables (env : Env) (E : encrypt.Engine) (M : GoValue -> Result string).
  Variables (r : Request) (fs0 : FileSystem).
  Local Abbreviation final := (EncryptEPUB env E M r (serving fs0)).

(** X13. The engine is called only once the upload has been written
    to its input path and the output directory has been created, and it
    is not called again afterwards. *)
Theorem engine_called_after_staging (args : encrypt.Args)
    (res : Result encrypt.Publication) :
  (args, res) ∈ engine_calls (trace final) ->
  exists before after,
    trace final = before ++ EvProcessEncryption args res :: after /\
    EvCopy (encrypt.inputPath args) (Ok tt) ∈ before /\
    EvMkdirAll (encrypt.outputRepo args) (Ok tt) ∈ before /\
    engine_calls before = [] /\ engine_calls after = [].
Proof.
  go_run; intros Hin; apply list_elem_of_In in Hin; simpl in Hin;
    try contradiction; destruct Hin as [Hin|[]]; injection Hin as <- <-.
  all: match goal with |- exists b a, ?l = _ /\ _ => exists (take 7 l), (drop 8 l) end.
  all: cbn [take drop encrypt.inputPath encrypt.outputRepo].
  all: split; [reflexivity|]. 
  all: split; [traced|]. 
  all: split; [traced|]. 
  all: split; reflexivity.
Qed.
End OrderRuns.

Lemma engine_called_witness :
  (bench_args, Err "not an EPUB") ∈ engine_calls (trace bench_refused) /\
  exists before after,
    trace bench_refused = before ++ EvProcessEncryption bench_args (Err "not an EPUB") :: after /\
    EvCopy (encrypt.inputPath bench_args) (Ok tt) ∈ before /\
    EvMkdirAll (encrypt.outputRepo bench_args) (Ok tt) ∈ before /\
    engine_calls before = [] /\ engine_calls after = [].
Proof.
  assert ((bench_args, Err "not an EPUB") ∈ engine_calls (trace bench_refused)) as H
    by evaluated.
  split; [exact H|].
  exact (engine_called_after_staging calm failing_engine (json_Marshal stub_quote)
           titled_upload disk bench_args (Err "not an EPUB") H).
Defined.

(** ** The title *)

Lemma Part_FileName_nonempty (p : Part) :
  part_filename p <> "" -> Part_FileName p <> "".
Proof.
  intros Hne. unfold Part_FileName.
  destruct (String.eqb_spec (part_filename p) "") as [|_]; [contradiction|].
  destruct (Base_name _ Hne) as [->|[_ H]]; [discriminate|exact H].
Qed.

(** [ReadForm] appends the values of the body, in order, to those
    already in the form. *)
Lemma readForm_values (spill : option string) (key : string) (parts : list Part) :
  key <> "" ->
  forall (a b : Z) (form f : Form),
    readForm spill parts a b form = Ok f ->
    default [] (Value f !! key) = default [] (Value form !! key) ++ form_values key parts.
Proof.
  intros Hkey. induction parts as [|p parts IH]; intros a b form f Hrun; simpl in Hrun.
  - injection Hrun as <-. simpl. rewrite app_nil_r. reflexivity.
  - cbn [form_values].
    destruct (String.eqb_spec (part_name p) "") as [Hn|Hn].
    { destruct (String.eqb_spec (part_name p) key) as [Hk|Hk]; [congruence|].
      cbn [andb]. eapply IH. exact Hrun. }
    destruct (String.eqb_spec (Part_FileName p) "") as [Hf|Hf].
    + destruct (a <? _)%Z; [discriminate|].
      apply IH in Hrun. rewrite Hrun. cbn [Value]. unfold append_at.
      assert (part_filename p = "") as ->.
      { destruct (String.eqb_spec (part_filename p) "") as [He|He]; [exact He|].
        exfalso. exact (Part_FileName_nonempty p He Hf). }
      cbn [String.eqb]. rewrite andb_true_r.
      destruct (String.eqb_spec (part_name p) key) as [Hk|Hk].
      * rewrite Hk, lookup_insert_eq. cbn [default from_option id].
        rewrite <- app_assoc. reflexivity.
      * rewrite lookup_insert_ne by exact Hk. reflexivity.
    + assert (String.eqb (part_filename p) "" = false) as ->.
      { apply String.eqb_neq. intros He. apply Hf, Part_FileName_empty, He. }
      rewrite andb_false_r.
      destruct (b <? _)%Z; [destruct spill; [discriminate|]|];
        apply IH in Hrun; exact Hrun.
Qed.

(** [FormValue] returns the first value under the key: of the query
    first, of the form next. *)
Lemma FormValue_request_values (spill : option string) (r : Request) (maxMemory : Z)
    (pr : ParsedRequest) (key : string) :
  key <> "" ->
  ParseMultipartForm spill r maxMemory = Ok pr ->
  FormValue pr key = hd "" (request_values key r).
Proof.
  intros Hkey Hparse. unfold ParseMultipartForm in Hparse. unfold request_values.
  destruct (Body r) as [|parts]; [discriminate|].
  unfold multipart_ReadForm in Hparse.
  destruct (readForm _ _ _ _ _) as [f|] eqn:Hread; [|discriminate].
  apply (readForm_values _ key _ Hkey) in Hread. cbn [Value] in Hread.
  rewrite lookup_empty in Hread. cbn [default app] in Hread. rewrite <- Hread.
  destruct (URLQueryErr r); [discriminate|]. injection Hparse as <-.
  unfold FormValue. cbn [r_Form]. rewrite lookup_union_with.
  destruct (URLQuery r !! key) as [q|], (Value f !! key) as [v|]; cbn.
  - destruct (q ++ v); reflexivity.
  - rewrite app_nil_r. destruct q; reflexivity.
  - destruct v; reflexivity.
  - reflexivity.
Qed.

Example request_title_examples :
  request_title titled_upload = "My Book" /\
  request_title query_titled = "From Query" /\
  request_title untitled_upload = "".
Proof. repeat split; reflexivity. Qed.

Section TitleRuns.
  Variables (env : Env) (E : encrypt.Engine) (M : GoValue -> Result string).
  Variables (r : Request) (fs0 : FileSystem).
  Local Abbreviation final := (EncryptEPUB env E M r (serving fs0)).

(** C4. In a completed request the title that is serialized into the
    metadata header is the value [r.FormValue] finds for [title]: the
    first one among the values of the URL query followed by the title
    fields of the multipart form, when that value is not empty; when it
    is empty, or there is none, the title is that of the engine's
    descriptor. *)
Theorem title_from_query_then_form :
  completed final ->
  exists pr args pub m json,
    EvParseMultipartForm (Z.shiftl 50 20) (Ok pr) ∈ trace final /\
    EvProcessEncryption args (Ok pub) ∈ trace final /\
    EvMarshal (EncryptResponse_value m) (Ok json) ∈ trace final /\
    response_header (resp final) !! "X-Encrypt-Metadata" = Some json /\
    FormValue pr "title" = request_title r /\
    (request_title r <> "" -> Title m = request_title r) /\
    (request_title r = "" -> Title m = encrypt.Title pub).
Proof.
  go_run; intros Hin; in_trace Hin.
  do 5 eexists. split; [traced|].
  split; [traced|].
  split; [traced|].
  split; [resp_red; reflexivity|].
  cbn [Title]. unfold request_title.
  rewrite <- (FormValue_request_values _ _ _ _ "title" ltac:(discriminate) Hparse).
  split; [reflexivity|].
  destruct (String.eqb_spec (FormValue pr "title") "") as [Heq|Hne]; cbn [negb];
    split; intros H; congruence.
Qed.
End TitleRuns.

(** C4 read on the title form field alone fails on a request that
    carries a title in its URL query as well: the form says My Book,
    the metadata says From Query. *)
Lemma title_form_field_counterexample :
  form_title query_titled = "My Book" /\
  (exists m json,
     EvMarshal (EncryptResponse_value m) (Ok json) ∈ trace bench_query /\
     Title m = "From Query") /\
  ¬ title_follows_form_field calm stub_engine (json_Marshal stub_quote) query_titled disk.
Proof.
  set (m := {| UUID := "00000000-0000-4000-8000-000000000000";
               EncryptionKey := base64_EncodeToString stub_key;
               Size := 5;
               Checksum := "stub-checksum";
               ContentType := "application/epub+zip";
               Title := "From Query";
               FileName := "00000000-0000-4000-8000-000000000000.epub" |}).
  assert (EvMarshal (EncryptResponse_value m) (Ok (EncryptResponse_json stub_quote m))
            ∈ trace bench_query) as Hm by evaluated.
  split; [reflexivity|].
  split; [exists m, (EncryptResponse_json stub_quote m); split; [exact Hm|reflexivity]|].
  intros Hclaim.
  assert (completed bench_query) as Hc by (unfold completed; evaluated).
  assert (EvProcessEncryption bench_args
            (Ok {| encrypt.UUID := "00000000-0000-4000-8000-000000000000";
                   encrypt.Title := "Embedded Title";
                   encrypt.EncryptionKey := stub_key;
                   encrypt.FileName := "00000000-0000-4000-8000-000000000000.epub";
                   encrypt.ContentType := "application/epub+zip";
                   encrypt.Size := 5;
                   encrypt.Checksum := "stub-checksum" |}) ∈ trace bench_query) as He
    by evaluated.
  specialize (Hclaim Hc _ _ _ _ He Hm). vm_compute in Hclaim. discriminate Hclaim.
Qed.

Lemma title_from_request_witness :
  completed bench_run /\
  exists pr args pub m json,
    EvParseMultipartForm (Z.shiftl 50 20) (Ok pr) ∈ trace bench_run /\
    EvProcessEncryption args (Ok pub) ∈ trace bench_run /\
    EvMarshal (EncryptResponse_value m) (Ok json) ∈ trace bench_run /\
    response_header (resp bench_run) !! "X-Encrypt-Metadata" = Some json /\
    FormValue pr "title" = request_title titled_upload /\
    (request_title titled_upload <> "" -> Title m = request_title titled_upload) /\
    (request_title titled_upload = "" -> Title m = encrypt.Title pub).
Proof.
  assert (completed bench_run) as H by (unfold completed; evaluated).
  split; [exact H|].
  exact (title_from_query_then_form calm stub_engine (json_Marshal stub_quote)
           titled_upload disk H).
Defined.
